(** * simpleperf/generate_art_jni_method_table.py

    A verification development for the generator of [art_jni_method_table.h]:
    the script scans the files of art/runtime/native with regular expressions,
    collects one [ArtJniMethod] per JNI method declaration, and renders the
    table, which it then writes or compares with the stored one.

    Layout: strings and the few [str] methods the script uses (module [Str]);
    the fragment of Python's [re] that its eleven patterns are written in, as
    a backtracking matcher (module [Re]); the script itself, function by
    function and under the names of the source; then the theorems.

    Text is a [string] of 8-bit characters read as code points 0..255, with
    the character classes of [re] on that range.  The script is taken as run
    by plain [python3], without [-O], so that its [assert] statements are
    executed; command lines that [argparse] rejects are left out. *)

From Stdlib Require Import Ascii ZArith Lia.
From stdpp Require Import base strings list gmap.

Local Open Scope nat_scope.

(* ===================================================================== *)
(** ** Strings, as Python's [str] *)
(* ===================================================================== *)

Module Str.

(** [s[n:]] *)
Fixpoint drop (n : nat) (s : string) : string :=
  match n, s with
  | S n', String _ s' => drop n' s'
  | _, _ => s
  end.

(** [s[:n]] *)
Fixpoint take (n : nat) (s : string) : string :=
  match n, s with
  | S n', String a s' => String a (take n' s')
  | _, _ => ""
  end.

#[global] Arguments drop : simpl nomatch.
#[global] Arguments take : simpl nomatch.

(** [s[len(p):]] when [s.startswith(p)] *)
Fixpoint strip_prefix (p s : string) : option string :=
  match p, s with
  | "", _ => Some s
  | String a p', String b s' =>
      if Ascii.eqb a b then strip_prefix p' s' else None
  | String _ _, "" => None
  end.

(** Number of leading characters of [s] that lie in the class [c]. *)
Fixpoint run (c : ascii → bool) (s : string) : nat :=
  match s with
  | String a s' => if c a then S (run c s') else 0
  | "" => 0
  end.

(** [s.replace(old, new)] for one-character [old] and [new]. *)
Fixpoint replace (old new : ascii) (s : string) : string :=
  match s with
  | "" => ""
  | String a s' =>
      String (if Ascii.eqb a old then new else a) (replace old new s')
  end.

(** [s.rfind(c)] for a one-character [c]: the highest index, or -1. *)
Fixpoint rfind_from (c : ascii) (i : Z) (s : string) : Z :=
  match s with
  | "" => (-1)%Z
  | String a s' =>
      let r := rfind_from c (i + 1)%Z s' in
      if (0 <=? r)%Z then r else if Ascii.eqb a c then i else (-1)%Z
  end.
Definition rfind (c : ascii) (s : string) : Z := rfind_from c 0%Z s.

(** [s[i:]] for an index [i] that is not negative. *)
Definition slice_from (i : Z) (s : string) : string := drop (Z.to_nat i) s.

(** [c in s] for a one-character [c]. *)
Fixpoint mem (c : ascii) (s : string) : bool :=
  match s with
  | "" => false
  | String a s' => Ascii.eqb a c || mem c s'
  end.

(** Whether every character of [s] lies in the class [c]. *)
Fixpoint all (c : ascii → bool) (s : string) : bool :=
  match s with
  | "" => true
  | String a s' => c a && all c s'
  end.

(** [sep.join(l)] *)
Fixpoint join (sep : string) (l : list string) : string :=
  match l with
  | [] => ""
  | [x] => x
  | x :: l' => x +:+ sep +:+ join sep l'
  end.

(** [s.split(sep)] for a one-character [sep]. *)
Fixpoint split (sep : ascii) (s : string) : list string :=
  match s with
  | "" => [""]
  | String a s' =>
      match split sep s' with
      | [] => []
      | x :: l => if Ascii.eqb a sep then "" :: x :: l else String a x :: l
      end
  end.

(** The last character of [s], when it has one. *)
Fixpoint last (s : string) : option ascii :=
  match s with
  | "" => None
  | String a "" => Some a
  | String _ s' => last s'
  end.

End Str.

(** The characters that cannot be typed inside a string literal. *)
Definition dquote : string := String "034"%char "".
Definition newline : string := String "010"%char "".

(** A line that is not empty and does not end in a newline. *)
Definition open_ended (s : string) : Prop :=
  s ≠ "" ∧ Str.last s ≠ Some "010"%char.

(* ===================================================================== *)
(** ** The fragment of [re] the script's patterns use *)
(* ===================================================================== *)

Module Re.

(** *** Character classes *)

Definition code (a : ascii) : N := N_of_ascii a.
Definition between (lo hi : N) (a : ascii) : bool :=
  ((lo <=? code a) && (code a <=? hi))%N.

(** [\s] of a [str] pattern: the characters for which [str.isspace] holds,
    which below 256 are tab to carriage return, the four separators
    0x1c..0x1f, the space, NEL and the no-break space. *)
Definition space (a : ascii) : bool :=
  between 9 13 a || between 28 31 a || (code a =? 32)%N
  || (code a =? 133)%N || (code a =? 160)%N.

(** [\w] of a [str] pattern: the underscore and the characters for which
    [str.isalnum] holds: below 128 the letters and the digits; in
    128..255 the letters (0xaa, 0xb5, 0xba, 0xc0..0xff without the two
    operators 0xd7 and 0xf7) and the numeric characters (0xb2, 0xb3, 0xb9,
    0xbc..0xbe). *)
Definition word (a : ascii) : bool :=
  between 48 57 a || between 65 90 a || between 97 122 a
  || (code a =? 95)%N
  || (code a =? 170)%N || (code a =? 181)%N || (code a =? 186)%N
  || (between 192 255 a
      && negb (code a =? 215)%N && negb (code a =? 247)%N)
  || between 178 179 a || (code a =? 185)%N || between 188 190 a.

(** [.] without DOTALL: anything but a newline. *)
Definition dot (a : ascii) : bool := negb (code a =? 10)%N.

(** [[^,]] *)
Definition not_comma (a : ascii) : bool := negb (code a =? 44)%N.

(** *** Patterns

    Every quantifier in the script sits on a single character class, and
    every group holds exactly one quantified class, so a pattern is a
    sequence of literals and quantified classes, some of them captured. *)

Inductive quantified :=
| Plus (c : ascii → bool)        (** [c+], greedy *)
| Star (c : ascii → bool)        (** [c*], greedy *)
| LazyPlus (c : ascii → bool).   (** [c+?] *)

Inductive node :=
| Lit (l : string)               (** the characters of [l], escaped *)
| Quant (q : quantified)         (** [q] *)
| Group (q : quantified).        (** [(q)] *)

Definition pattern := list node.

Definition lazy (q : quantified) : bool :=
  match q with LazyPlus _ => true | _ => false end.
Definition at_least (q : quantified) : nat :=
  match q with Star _ => 0 | _ => 1 end.
Definition class (q : quantified) : ascii → bool :=
  match q with Plus c | Star c | LazyPlus c => c end.

(** *** Matching at a position

    The result of a match at the head of [s]: the captured groups in
    order and what is left of [s] after the match. *)

Definition outcome : Type := list string * string.

(** A greedy quantifier takes all of the run and gives back one character
    at a time, down to [lo], until the rest of the pattern matches. *)
Fixpoint give_back (k : string → option outcome) (lo n : nat) (s : string)
  : option (nat * outcome) :=
  if n <? lo then None
  else match k (Str.drop n s) with
       | Some r => Some (n, r)
       | None =>
           match n with
           | 0 => None
           | S n' => give_back k lo n' s
           end
       end.

(** A lazy quantifier takes [n] characters and one more at a time, as far
    as the run reaches, until the rest of the pattern matches. *)
Fixpoint take_more (k : string → option outcome) (more n : nat) (s : string)
  : option (nat * outcome) :=
  match k (Str.drop n s) with
  | Some r => Some (n, r)
  | None =>
      match more with
      | 0 => None
      | S more' => take_more k more' (S n) s
      end
  end.

Definition repeat (k : string → option outcome) (q : quantified) (s : string)
  : option (nat * outcome) :=
  let hi := Str.run (class q) s in
  let lo := at_least q in
  if lazy q then
    if hi <? lo then None else take_more k (hi - lo) lo s
  else give_back k lo hi s.

Fixpoint match_here (p : pattern) (s : string) : option outcome :=
  match p with
  | [] => Some ([], s)
  | Lit l :: p' =>
      match Str.strip_prefix l s with
      | Some s' => match_here p' s'
      | None => None
      end
  | Quant q :: p' =>
      match repeat (match_here p') q s with
      | Some (_, r) => Some r
      | None => None
      end
  | Group q :: p' =>
      match repeat (match_here p') q s with
      | Some (n, (gs, rest)) => Some (Str.take n s :: gs, rest)
      | None => None
      end
  end.

(** *** Match objects, [search] and [finditer] *)

Record Match := { m_start : nat; m_end : nat; m_groups : list string }.

(** [m.group(i)] for [i >= 1]. *)
Definition group (i : nat) (m : Match) : string :=
  nth (pred i) (m_groups m) "".

(** The match of [p] at the head of [s], which stands at offset [pos]. *)
Definition match_at (p : pattern) (pos : nat) (s : string) : option Match :=
  match match_here p s with
  | Some (gs, rest) =>
      Some {| m_start := pos;
              m_end := pos + (String.length s - String.length rest);
              m_groups := gs |}
  | None => None
  end.

(** [p.search(text)]: the match at the leftmost position that has one. *)
Fixpoint search_from (p : pattern) (pos : nat) (s : string) : option Match :=
  match match_at p pos s with
  | Some m => Some m
  | None =>
      match s with
      | "" => None
      | String _ s' => search_from p (S pos) s'
      end
  end.
Definition search (p : pattern) (text : string) : option Match :=
  search_from p 0 text.

(** [p.finditer(text)]: the matches of successive searches, each from the
    end of the match before.  [skip] counts the characters of the last
    match still to pass over.  (After an empty match the scan moves on by
    one character; no pattern of the script matches the empty string.) *)
Fixpoint finditer_from (p : pattern) (skip pos : nat) (s : string)
  : list Match :=
  match skip, s with
  | S skip', String _ s' => finditer_from p skip' (S pos) s'
  | S _, "" => []
  | 0, _ =>
      match match_at p pos s, s with
      | Some m, String _ s' =>
          m :: finditer_from p (pred (m_end m - pos)) (S pos) s'
      | Some m, "" => [m]
      | None, String _ s' => finditer_from p 0 (S pos) s'
      | None, "" => []
      end
  end.
Definition finditer (p : pattern) (text : string) : list Match :=
  finditer_from p 0 0 text.

(** The least number of characters a match of [p] spans, and the number
    of groups it captures. *)
Definition node_min (x : node) : nat :=
  match x with
  | Lit l => String.length l
  | Quant q | Group q => at_least q
  end.
Fixpoint min_len (p : pattern) : nat :=
  match p with
  | [] => 0
  | x :: p' => node_min x + min_len p'
  end.

Definition node_groups (x : node) : nat :=
  match x with Group _ => 1 | _ => 0 end.
Fixpoint groups_of (p : pattern) : nat :=
  match p with
  | [] => 0
  | x :: p' => node_groups x + groups_of p'
  end.

(** The quantified classes of the groups of [p], in order, and what a
    group holds of a match: enough characters, all of them of its class. *)
Fixpoint captures (p : pattern) : list quantified :=
  match p with
  | [] => []
  | Group q :: p' => q :: captures p'
  | _ :: p' => captures p'
  end.
Definition captured_by (q : quantified) (g : string) : Prop :=
  at_least q ≤ String.length g ∧ Str.all (class q) g = true.

(** What it is for a string to match a pattern, with the groups it gives:
    the string splits into one piece per node, a literal's piece being the
    literal and a quantified class's piece a string the class captures. *)
Inductive matches_node : node → string → list string → Prop :=
| matches_Lit l : matches_node (Lit l) l []
| matches_Quant q s : captured_by q s → matches_node (Quant q) s []
| matches_Group q s : captured_by q s → matches_node (Group q) s [s].

Inductive matches : pattern → string → list string → Prop :=
| matches_nil : matches [] "" []
| matches_cons x p s1 s2 g1 g2 :
    matches_node x s1 g1 → matches p s2 g2 →
    matches (x :: p) (s1 +:+ s2) (g1 ++ g2).

(** The text holds a match of the pattern somewhere. *)
Definition occurs (p : pattern) (text : string) : Prop :=
  ∃ pre m post gs, text = pre +:+ m +:+ post ∧ matches p m gs.

(** Matches in textual order from the offset [from] on: none is empty,
    and each starts where the one before ended, or later. *)
Fixpoint in_order (from : nat) (ms : list Match) : Prop :=
  match ms with
  | [] => True
  | m :: ms' =>
      from ≤ m_start m ∧ m_start m < m_end m ∧ in_order (m_end m) ms'
  end.

(** [m] as a scan that started [d] characters earlier reports it. *)
Definition shift (d : nat) (m : Match) : Match :=
  {| m_start := d + m_start m; m_end := d + m_end m;
     m_groups := m_groups m |}.

End Re.

(* ===================================================================== *)
(** ** Exceptions *)
(* ===================================================================== *)

Inductive exn :=
| AssertionError (msg : option string)   (** a failed [assert], with its message *)
| FileNotFoundError.                     (** [read_text] of a file that is not there *)

Inductive result (A : Type) :=
| Ok (a : A)
| Raise (e : exn).
Arguments Ok {A} a.
Arguments Raise {A} e.

#[global] Instance result_ret : MRet result := λ A, @Ok A.
#[global] Instance result_bind : MBind result := λ A B f r,
  match r with
  | Ok a => f a
  | Raise e => Raise e
  end.

(** [assert cond] and [assert cond, msg] *)
Definition assert (cond : bool) : result unit :=
  if cond then Ok () else Raise (AssertionError None).
Definition assert_msg (cond : bool) (msg : string) : result unit :=
  if cond then Ok () else Raise (AssertionError (Some msg)).

(** [for x in l: st = body(st, x)], where the body may raise. *)
Fixpoint for_each {A S : Type} (l : list A) (body : S → A → result S) (st : S)
  : result S :=
  match l with
  | [] => Ok st
  | x :: l' => st' ← body st x; for_each l' body st'
  end.

Definition raises {A : Type} (r : result A) : Prop :=
  match r with Ok _ => False | Raise _ => True end.

(* ===================================================================== *)
(** ** The script *)
(* ===================================================================== *)

Record ArtJniMethod := {
  class_name : string;           (** like java.lang.reflect.Method *)
  java_method_name : string;     (** like invoke *)
  native_method_name : string    (** like Method_invoke *)
}.

Module ArtJniMethodParser.
Import Re.

(** [REGISTER_NATIVE_METHODS\(\"(.+?)\"\)] *)
Definition class_name_pattern : pattern :=
  [Lit ("REGISTER_NATIVE_METHODS(" +:+ dquote); Group (LazyPlus dot);
   Lit (dquote +:+ ")")].

Definition names : list string :=
  ["NATIVE_METHOD"; "FAST_NATIVE_METHOD"; "CRITICAL_NATIVE_METHOD"].

(** [\(\s*(\w+)\s*,\s*(\w+)] *)
Definition method_s : pattern :=
  [Lit "("; Quant (Star space); Group (Plus word); Quant (Star space);
   Lit ","; Quant (Star space); Group (Plus word)].

(** [\(\s*(\w+)\s*,\s*(\w+)\s*,[^,]*,\s*(\w+)] *)
Definition overload_s : pattern :=
  [Lit "("; Quant (Star space); Group (Plus word); Quant (Star space);
   Lit ","; Quant (Star space); Group (Plus word); Quant (Star space);
   Lit ","; Quant (Star not_comma); Lit ","; Quant (Star space);
   Group (Plus word)].

(** [\s+ name method_s] and [\s+ name AUTOSIG method_s] for each name *)
Definition method_patterns : list pattern :=
  flat_map (λ name,
    [Quant (Plus space) :: Lit name :: method_s;
     Quant (Plus space) :: Lit (name +:+ "AUTOSIG") :: method_s]) names.

(** [\s+OVERLOADED_ name overload_s] for each name *)
Definition overload_method_patterns : list pattern :=
  map (λ name,
    Quant (Plus space) :: Lit ("OVERLOADED_" +:+ name) :: overload_s) names.

(** [static\s+\w+\s+(\w+)\(] *)
Definition static_function_pattern : pattern :=
  [Lit "static"; Quant (Plus space); Quant (Plus word); Quant (Plus space);
   Group (Plus word); Lit "("].

(** Return class name like "dalvik.system.BaseDexClassLoader". *)
Definition _get_class_name (text : string) : result (option string) :=
  match search class_name_pattern text with
  | None => Ok None
  | Some m =>
      let class_name := group 1 m in
      _ ← assert (bool_decide
             (search class_name_pattern (Str.drop (m_end m) text) = None));
      Ok (Some (Str.replace "/" "." class_name))
  end.

Definition class_base_name_of (class_name : string) : string :=
  Str.slice_from (Str.rfind "." class_name + 1)%Z class_name.

(** The body of the two loops of [_get_methods] over the matches of one
    pattern; [sym] is the group that names the native function. *)
Definition append_method (class_name class_base_name : string) (sym : nat)
    (methods : list ArtJniMethod) (m : Match) : result (list ArtJniMethod) :=
  _ ← assert (bool_decide (class_base_name = group 1 m));
  Ok (methods ++
      [{| class_name := class_name;
          java_method_name := group 2 m;
          native_method_name := class_base_name +:+ "_" +:+ group sym m |}]).

Definition _get_methods (text class_name : string)
  : result (list ArtJniMethod) :=
  let class_base_name := class_base_name_of class_name in
  methods ← for_each method_patterns (λ methods p,
    for_each (finditer p text)
      (append_method class_name class_base_name 2) methods) [];
  for_each overload_method_patterns (λ methods p,
    for_each (finditer p text)
      (append_method class_name class_base_name 3) methods) methods.

Definition static_function_names_of (text : string) : gset string :=
  foldl (λ names m, names ∪ {[ group 1 m ]}) ∅
        (finditer static_function_pattern text).

Definition _check_methods (file_path text : string)
    (methods : list ArtJniMethod) : result unit :=
  let static_function_names := static_function_names_of text in
  for_each methods (λ _ method,
    assert_msg
      (bool_decide (native_method_name method ∈ static_function_names))
      (native_method_name method +:+ " isn't a static function in "
         +:+ file_path)) ().

(** The matches the scans of a text go through: of the registration
    marker, of the six plain declaration forms and of the three
    overloaded ones, and the record [_get_methods] makes of a match. *)
Definition markers (text : string) : list Match :=
  finditer class_name_pattern text.
Definition plain_declarations (text : string) : list Match :=
  p ← method_patterns; finditer p text.
Definition overloaded_declarations (text : string) : list Match :=
  p ← overload_method_patterns; finditer p text.
Definition record_of (class_name : string) (sym : nat) (m : Match)
  : ArtJniMethod :=
  {| class_name := class_name;
     java_method_name := group 2 m;
     native_method_name :=
       class_base_name_of class_name +:+ "_" +:+ group sym m |}.

(** [class_base_name == m.group(1)], the condition both loops of
    [_get_methods] assert. *)
Definition bound_to (base : string) (m : Match) : bool :=
  bool_decide (base = group 1 m).

(** [method.native_method_name in static_function_names], the condition
    [_check_methods] asserts, and the message of its failure. *)
Definition backed (text : string) (method : ArtJniMethod) : bool :=
  bool_decide (native_method_name method ∈ static_function_names_of text).

Definition not_static (file_path : string) (method : ArtJniMethod) : string :=
  native_method_name method +:+ " isn't a static function in " +:+ file_path.

(** [file] is a path with the text that [read_text] returns for it. *)
Definition parse_methods (file : string * string)
  : result (list ArtJniMethod) :=
  let '(file_path, text) := file in
  class_name ← _get_class_name text;
  match class_name with
  | None | Some "" => Ok []
  | Some class_name =>
      methods ← _get_methods text class_name;
      _ ← _check_methods file_path text methods;
      Ok methods
  end.

(** The declarations of a text, each with the group that names its native
    function. *)
Definition declarations (text : string) : list (nat * Match) :=
  ((λ d, (2, d)) <$> plain_declarations text)
  ++ ((λ d, (3, d)) <$> overloaded_declarations text).

(** Records in the order their declarations stand in the text: of two
    declarations, the record of the one that starts first comes first. *)
Definition follows_declaration_order (text cls : string)
    (records : list ArtJniMethod) : Prop :=
  ∀ s1 d1 s2 d2 i j,
    (s1, d1) ∈ declarations text → (s2, d2) ∈ declarations text →
    m_start d1 < m_start d2 →
    records !! i = Some (record_of cls s1 d1) →
    records !! j = Some (record_of cls s2 d2) →
    i < j.

(** The records [_get_methods] makes of a text: form by form in the order
    of the pattern lists, and within a form in the order of [finditer]. *)
Definition records_by_form (text cls : string) : list ArtJniMethod :=
  (p ← method_patterns; record_of cls 2 <$> finditer p text)
  ++ (p ← overload_method_patterns; record_of cls 3 <$> finditer p text).

End ArtJniMethodParser.

(** [files] lists what [ART_NATIVE_METHOD_DIR.iterdir()] yields, in its
    order. *)
Definition collect_art_jni_methods (files : list (string * string))
  : result (list ArtJniMethod) :=
  for_each files (λ methods file_path,
    more ← ArtJniMethodParser.parse_methods file_path;
    Ok (methods ++ more)) [].

Definition header : list string :=
  ["// This file is generated by generate_art_jni_method_table.py.";
   "// clang-format off"].

(** ['ART_JNI_METHOD("%s", "%s")' % (identifier, symbol)] *)
Definition format_line (identifier symbol : string) : string :=
  "ART_JNI_METHOD(" +:+ dquote +:+ identifier +:+ dquote +:+ ", "
    +:+ dquote +:+ symbol +:+ dquote +:+ ")".

Definition method_line (method : ArtJniMethod) : string :=
  format_line (class_name method +:+ "." +:+ java_method_name method)
              ("art::" +:+ native_method_name method).

Definition art_jni_methods_to_str (methods : list ArtJniMethod) : string :=
  let lines :=
    foldl (λ lines method, lines ++ [method_line method]) header methods in
  Str.join newline lines.

(** What the script reads and writes: the files of the native directory,
    the stored table, and the standard output.  Of a file the world holds
    the text that [read_text] returns for it ([None] for a stored table
    that is not there). *)
Record world := {
  native_method_dir : list (string * string);
  OUTPUT_FILE : option string;
  stdout : list string
}.

(** [print(line)] and [OUTPUT_FILE.write_text(text)]: the file then stores
    the characters of [text], which hold no carriage return when the script
    has rendered them from files it has read, and so are read back as they
    are. *)
Definition print (line : string) (w : world) : world :=
  {| native_method_dir := native_method_dir w;
     OUTPUT_FILE := OUTPUT_FILE w;
     stdout := stdout w ++ [line] |}.
Definition write_text (text : string) (w : world) : world :=
  {| native_method_dir := native_method_dir w;
     OUTPUT_FILE := Some text;
     stdout := stdout w |}.

(** [Path.read_text()] opens the file in text mode, with universal
    newlines: of the characters the file stores, a carriage return with the
    line feed that follows it, and every other carriage return, is read as
    one line feed. *)
Fixpoint read_text (stored : string) : string :=
  match stored with
  | "" => ""
  | String c rest =>
      if Ascii.eqb c "013" then
        match rest with
        | String d rest' =>
            if Ascii.eqb d "010" then String "010" (read_text rest')
            else String "010" (read_text rest)
        | "" => String "010" (read_text rest)
        end
      else String c (read_text rest)
  end.

(** The files of a directory as the script reads them, each a path with
    the characters it stores. *)
Definition read_files (files : list (string * string))
  : list (string * string) :=
  (λ file, (fst file, read_text (snd file))) <$> files.

(** The world of a run when the files of the native directory store the
    characters [files], the stored table the characters [table] ([None]:
    there is no such file), and [out] has been printed so far. *)
Definition world_on_disk (files : list (string * string))
    (table : option string) (out : list string) : world :=
  {| native_method_dir := read_files files;
     OUTPUT_FILE := read_text <$> table;
     stdout := out |}.

(** Where [main] stands: before each of its statements, or done. *)
Inductive point :=
| AtCollect                                 (** [methods = collect_art_jni_methods()] *)
| AtRender (methods : list ArtJniMethod)    (** [text = art_jni_methods_to_str(methods)] *)
| AtOutput (text : string)                  (** [if args.check_only: ... write_text(text)] *)
| Returned (ok : bool)
| Raised (e : exn).

Definition main_step (check_only : bool) (st : point * world) : point * world :=
  let '(at_, w) := st in
  match at_ with
  | AtCollect =>
      match collect_art_jni_methods (native_method_dir w) with
      | Ok methods => (AtRender methods, w)
      | Raise e => (Raised e, w)
      end
  | AtRender methods => (AtOutput (art_jni_methods_to_str methods), w)
  | AtOutput text =>
      if check_only then
        match OUTPUT_FILE w with
        | None => (Raised FileNotFoundError, w)
        | Some stored =>
            if bool_decide (text ≠ stored) then
              (Returned false, print "ART native methods have changed" w)
            else (Returned true, w)
        end
      else (Returned true, write_text text w)
  | Returned _ | Raised _ => st
  end.

(** The states [main] goes through, from the first statement on. *)
Fixpoint main_trace (check_only : bool) (n : nat) (st : point * world)
  : list (point * world) :=
  match n with
  | 0 => [st]
  | S n' => st :: main_trace check_only n' (main_step check_only st)
  end.

Definition main (check_only : bool) (w : world) : point * world :=
  main_step check_only (main_step check_only (main_step check_only (AtCollect, w))).

(** [sys.exit(0 if main() else 1)]; an exception that nothing catches ends
    the interpreter with status 1. *)
Definition exit_status (check_only : bool) (w : world) : Z :=
  match fst (main check_only w) with
  | Returned true => 0
  | _ => 1
  end.

(** A record none of whose fields holds a newline. *)
Definition one_line (s : string) : Prop := Str.mem "010" s = false.
Definition one_line_record (method : ArtJniMethod) : Prop :=
  one_line (class_name method) ∧ one_line (java_method_name method)
  ∧ one_line (native_method_name method).

(** A text, and a record, that holds no carriage return. *)
Definition no_carriage_return (s : string) : Prop := Str.mem "013" s = false.
Definition no_carriage_return_record (method : ArtJniMethod) : Prop :=
  no_carriage_return (class_name method)
  ∧ no_carriage_return (java_method_name method)
  ∧ no_carriage_return (native_method_name method).

(** Names as the patterns capture them: words and runs of white space
    that are not empty. *)
Definition word_name (s : string) : Prop :=
  s ≠ "" ∧ Str.all Re.word s = true.
Definition white_space (s : string) : Prop :=
  s ≠ "" ∧ Str.all Re.space s = true.

(** A run of white space that may be empty. *)
Definition blank (s : string) : Prop := Str.all Re.space s = true.

(** A string whose first character is there and is not white space. *)
Definition starts_solid (s : string) : bool :=
  match s with
  | String c _ => negb (Re.space c)
  | "" => false
  end.

(** The two literals of the registration marker. *)
Definition marker_open : string := "REGISTER_NATIVE_METHODS(" +:+ dquote.
Definition marker_close : string := dquote +:+ ")".

(** The text holds a registration of [cls] between [pre] and [post]: the
    opening literal, an identifier that is not empty and does not run over
    a line end, and the closing literal. *)
Definition registers (text pre cls post : string) : Prop :=
  text = pre +:+ marker_open +:+ cls +:+ marker_close +:+ post
  ∧ cls ≠ "" ∧ one_line cls.

(** What a file adds to the collection when parsing it raises nothing. *)
Definition records_of_file (file : string * string) : list ArtJniMethod :=
  match ArtJniMethodParser.parse_methods file with
  | Ok records => records
  | Raise _ => []
  end.

(** The names of the nine declaration forms, in the order of the pattern
    lists. *)
Definition form_names : list string :=
  (name ← ArtJniMethodParser.names; [name; name +:+ "AUTOSIG"])
  ++ ((λ name, "OVERLOADED_" +:+ name) <$> ArtJniMethodParser.names).

(* ===================================================================== *)
(** ** Sample inputs *)
(* ===================================================================== *)

Module Samples.

Definition quoted (s : string) : string := dquote +:+ s +:+ dquote.
Definition register (cls : string) : string :=
  "  REGISTER_NATIVE_METHODS(" +:+ quoted cls +:+ ");".

(** One class, one method, its function defined. *)
Definition foo_cc : string := Str.join newline [
  "static void Foo_bar(JNIEnv* env) {}";
  "static JNINativeMethod gMethods[] = {";
  "  NATIVE_METHOD(Foo, bar, " +:+ quoted "()V" +:+ "),";
  "};";
  "void register_a_b_Foo(JNIEnv* env) {";
  register "a/b/Foo";
  "}"; ""].

(** Declarations, but no registration. *)
Definition no_marker_cc : string := Str.join newline [
  "static void Foo_bar(JNIEnv* env) {}";
  "static JNINativeMethod gMethods[] = {";
  "  NATIVE_METHOD(Foo, bar, " +:+ quoted "()V" +:+ "),";
  "  NATIVE_METHOD(Other, baz, " +:+ quoted "()V" +:+ "),";
  "};"; ""].

(** Two registrations. *)
Definition two_markers_cc : string := Str.join newline [
  "static void Foo_bar(JNIEnv* env) {}";
  "  NATIVE_METHOD(Foo, bar, " +:+ quoted "()V" +:+ "),";
  register "a/b/Foo";
  register "a/b/Foo"; ""].

(** Two registrations on one line, the first without its closing
    parenthesis: the lazy group of the marker runs on to the end of the
    second, and the scan finds one match. *)
Definition run_on_markers_cc : string := Str.join newline [
  "  REGISTER_NATIVE_METHODS(" +:+ quoted "a/b/Foo" +:+ "; "
    +:+ "REGISTER_NATIVE_METHODS(" +:+ quoted "a/b/Bar" +:+ ");"; ""].

(** A declaration for another class than the registered one. *)
Definition wrong_class_cc : string := Str.join newline [
  "static void Foo_bar(JNIEnv* env) {}";
  "static void Other_baz(JNIEnv* env) {}";
  "  NATIVE_METHOD(Foo, bar, " +:+ quoted "()V" +:+ "),";
  "  NATIVE_METHOD(Other, baz, " +:+ quoted "()V" +:+ "),";
  register "a/b/Foo"; ""].

(** A declaration whose function is not defined in the file. *)
Definition missing_function_cc : string := Str.join newline [
  "static void Foo_bar(JNIEnv* env) {}";
  "  NATIVE_METHOD(Foo, bar, " +:+ quoted "()V" +:+ "),";
  "  NATIVE_METHOD(Foo, baz, " +:+ quoted "()V" +:+ "),";
  register "a/b/Foo"; ""].

(** A fast method declared before a plain one, and an overloaded one
    between them. *)
Definition mixed_cc : string := Str.join newline [
  "static void Foo_first(JNIEnv* env) {}";
  "static void Foo_secondI(JNIEnv* env, jint i) {}";
  "static void Foo_third(JNIEnv* env) {}";
  "static JNINativeMethod gMethods[] = {";
  "  FAST_NATIVE_METHOD(Foo, first, " +:+ quoted "()V" +:+ "),";
  "  OVERLOADED_NATIVE_METHOD(Foo, second, " +:+ quoted "(I)V" +:+ ", secondI),";
  "  NATIVE_METHOD(Foo, third, " +:+ quoted "()V" +:+ "),";
  "};";
  register "a/b/Foo"; ""].

Definition world_of (files : list (string * string)) (stored : option string)
  : world :=
  {| native_method_dir := files; OUTPUT_FILE := stored; stdout := [] |}.

End Samples.

Module MoreSamples.
Import Samples.

(** A second class, with an AUTOSIG and a critical method. *)
Definition bar_cc : string := Str.join newline [
  "static jint Bar_size(JNIEnv* env, jobject o) { return 0; }";
  "static void Bar_clear() {}";
  "static JNINativeMethod gMethods[] = {";
  "  NATIVE_METHODAUTOSIG(Bar, size),";
  "  CRITICAL_NATIVE_METHOD(Bar, clear, " +:+ quoted "()V" +:+ "),";
  "};";
  register "x/Bar"; ""].

(** No registration and nothing else of interest. *)
Definition plain_cc : string := Str.join newline [
  "#include <jni.h>";
  "int helper(int x) { return x; }"; ""].


End MoreSamples.

(* ===================================================================== *)
(** ** Facts about strings *)
(* ===================================================================== *)

Module StrFacts.
Import Str.

Lemma app_cons a s t : String a s +:+ t = String a (s +:+ t).
Proof. reflexivity. Qed.

Lemma app_empty_l s : "" +:+ s = s.
Proof. reflexivity. Qed.

Lemma app_empty_r s : s +:+ "" = s.
Proof. induction s as [|a s IH]; [done|]. by rewrite app_cons, IH. Qed.

Lemma app_assoc s t u : (s +:+ t) +:+ u = s +:+ t +:+ u.
Proof. induction s as [|a s IH]; [done|]. by rewrite !app_cons, IH. Qed.

Lemma length_app s t :
  String.length (s +:+ t) = String.length s + String.length t.
Proof. induction s as [|a s IH]; [done|]. rewrite app_cons. simpl. by rewrite IH. Qed.

Lemma drop_0 s : drop 0 s = s.
Proof. by destruct s. Qed.

Lemma drop_empty n : drop n "" = "".
Proof. by destruct n. Qed.

Lemma length_drop n s : String.length (drop n s) = String.length s - n.
Proof.
  revert s. induction n as [|n IH]; intros [|a s]; simpl; auto with lia.
Qed.

Lemma drop_drop n m s : drop n (drop m s) = drop (m + n) s.
Proof.
  revert s. induction m as [|m IH]; intros s.
  - by rewrite drop_0.
  - destruct s as [|a s]; simpl; [by rewrite drop_empty | apply IH].
Qed.

Lemma drop_app_length s t : drop (String.length s) (s +:+ t) = t.
Proof. induction s as [|a s IH]; [apply drop_0 | apply IH]. Qed.

Lemma take_drop n s : take n s +:+ drop n s = s.
Proof.
  revert s. induction n as [|n IH]; intros [|a s]; simpl; try done.
  by rewrite app_cons, IH.
Qed.

Lemma length_take n s : n ≤ String.length s → String.length (take n s) = n.
Proof.
  revert s. induction n as [|n IH]; intros [|a s]; simpl; auto with lia.
Qed.

Lemma take_app_length s t : take (String.length s) (s +:+ t) = s.
Proof. induction s as [|a s IH]; [by destruct t|]. simpl. by rewrite IH. Qed.

Lemma strip_prefix_Some p s s' :
  strip_prefix p s = Some s' ↔ s = p +:+ s'.
Proof.
  revert s. induction p as [|a p IH]; intros s; simpl.
  - rewrite app_empty_l. split; [by intros [= ->]|by intros ->].
  - destruct s as [|b s]; [by rewrite app_cons|].
    rewrite app_cons. destruct (Ascii.eqb_spec a b) as [->|Hne].
    + rewrite IH. split; [by intros ->|by intros [= ->]].
    + split; [done|]. by intros [= ? _].
Qed.

Lemma strip_prefix_app p s : strip_prefix p (p +:+ s) = Some s.
Proof. by apply strip_prefix_Some. Qed.

Lemma strip_prefix_drop p s s' :
  strip_prefix p s = Some s' → s' = drop (String.length p) s.
Proof. intros ->%strip_prefix_Some. by rewrite drop_app_length. Qed.

Lemma all_take_run c n s : n ≤ run c s → all c (take n s) = true.
Proof.
  revert s. induction n as [|n IH]; intros [|a s]; simpl; try done.
  destruct (c a); simpl; [|lia]. intros Hn. apply IH. lia.
Qed.

Lemma run_le c s : run c s ≤ String.length s.
Proof. induction s as [|a s IH]; simpl; [lia|]. destruct (c a); simpl; lia. Qed.

End StrFacts.

(* ===================================================================== *)
(** ** Facts about the matcher *)
(* ===================================================================== *)

Module ReFacts.
Import Str StrFacts Re.

Section Backtracking.
Variable k : string → option outcome.

(** [give_back] returns the largest count in [lo..n] after which the
    continuation matches. *)
Lemma give_back_Some lo n s j r :
  give_back k lo n s = Some (j, r) →
  lo ≤ j ≤ n ∧ k (drop j s) = Some r
  ∧ ∀ j', j < j' ≤ n → k (drop j' s) = None.
Proof.
  induction n as [|n IH]; simpl.
  - destruct lo; simpl; [|done].
    destruct (k s) eqn:Hk; [|done].
    intros [= <- <-]. rewrite drop_0. repeat split; auto with lia.
  - destruct (S n <? lo) eqn:Hlt; [done|]. apply Nat.ltb_ge in Hlt.
    destruct (k (drop (S n) s)) eqn:Hk.
    + intros [= <- <-]. repeat split; auto with lia.
    + intros (Hj & Hr & Hmax)%IH. repeat split; [lia..|done|].
      intros j' Hj'. destruct (decide (j' = S n)) as [->|]; [done|].
      apply Hmax. lia.
Qed.

Lemma give_back_None lo n s :
  give_back k lo n s = None →
  ∀ j, lo ≤ j ≤ n → k (drop j s) = None.
Proof.
  induction n as [|n IH]; simpl.
  - destruct lo; simpl; [|intros; lia].
    destruct (k s) eqn:Hk; [done|].
    intros _ j Hj. replace j with 0 by lia. by rewrite drop_0.
  - destruct (S n <? lo) eqn:Hlt.
    { apply Nat.ltb_lt in Hlt. intros; lia. }
    destruct (k (drop (S n) s)) eqn:Hk; [done|].
    intros Hn j Hj. destruct (decide (j = S n)) as [->|]; [done|].
    apply IH; [done|lia].
Qed.

(** [take_more] returns the smallest count in [n..n+more] after which
    the continuation matches. *)
Lemma take_more_Some more n s j r :
  take_more k more n s = Some (j, r) →
  n ≤ j ≤ n + more ∧ k (drop j s) = Some r
  ∧ ∀ j', n ≤ j' < j → k (drop j' s) = None.
Proof.
  revert n. induction more as [|more IH]; intros n; simpl.
  - destruct (k (drop n s)) eqn:Hk; [|done].
    intros [= <- <-]. repeat split; auto with lia.
  - destruct (k (drop n s)) eqn:Hk.
    + intros [= <- <-]. repeat split; auto with lia.
    + intros (Hj & Hr & Hmin)%IH. repeat split; [lia..|done|].
      intros j' Hj'. destruct (decide (j' = n)) as [->|]; [done|].
      apply Hmin. lia.
Qed.

Lemma take_more_None more n s :
  take_more k more n s = None →
  ∀ j, n ≤ j ≤ n + more → k (drop j s) = None.
Proof.
  revert n. induction more as [|more IH]; intros n; simpl.
  - destruct (k (drop n s)) eqn:Hk; [done|].
    intros _ j Hj. by replace j with n by lia.
  - destruct (k (drop n s)) eqn:Hk; [done|].
    intros Hn j Hj. destruct (decide (j = n)) as [->|]; [done|].
    apply (IH (S n)); [done|lia].
Qed.

Lemma repeat_Some q s j r :
  repeat k q s = Some (j, r) →
  at_least q ≤ j ≤ run (class q) s ∧ k (drop j s) = Some r.
Proof.
  unfold repeat. destruct (lazy q).
  - destruct (_ <? _) eqn:Hlt; [done|]. apply Nat.ltb_ge in Hlt.
    intros (? & ? & _)%take_more_Some. split; [lia|done].
  - intros (? & ? & _)%give_back_Some. done.
Qed.

(** A quantifier fails only when the continuation fails after every
    count it may take. *)
Lemma repeat_None q s :
  repeat k q s = None →
  ∀ j, at_least q ≤ j ≤ run (class q) s → k (drop j s) = None.
Proof.
  unfold repeat. destruct (lazy q).
  - destruct (_ <? _) eqn:Hlt.
    { apply Nat.ltb_lt in Hlt. intros; lia. }
    apply Nat.ltb_ge in Hlt.
    intros Hn j Hj. eapply take_more_None; [done|lia].
  - apply give_back_None.
Qed.
End Backtracking.

(** What a match leaves is a suffix of the text, at least [min_len p]
    characters in, and the groups are as many as the pattern has. *)
Lemma match_here_Some p s gs rest :
  match_here p s = Some (gs, rest) →
  ∃ n, rest = drop n s ∧ min_len p ≤ n ≤ String.length s
       ∧ length gs = groups_of p.
Proof.
  revert s gs rest. induction p as [|x p IH]; intros s gs rest; simpl.
  - intros [= <- <-]. exists 0. by rewrite drop_0; auto with lia.
  - destruct x as [l|q|q].
    + destruct (strip_prefix l s) as [s'|] eqn:Hl; [|done].
      apply strip_prefix_Some in Hl as ->.
      intros (n & -> & Hn & Hg)%IH. exists (String.length l + n).
      rewrite length_app. rewrite <-drop_drop, drop_app_length.
      simpl. auto with lia.
    + destruct (repeat _ q s) as [[j [gs' rest']]|] eqn:Hq; [|done].
      intros [= <- <-]. apply repeat_Some in Hq as [Hj Hk].
      apply IH in Hk as (n & -> & Hn & Hg). exists (j + n).
      rewrite drop_drop. pose proof (run_le (class q) s).
      rewrite length_drop in Hn.
      simpl. auto with lia.
    + destruct (repeat _ q s) as [[j [gs' rest']]|] eqn:Hq; [|done].
      intros [= <- <-]. apply repeat_Some in Hq as [Hj Hk].
      apply IH in Hk as (n & -> & Hn & Hg). exists (j + n).
      rewrite drop_drop. pose proof (run_le (class q) s).
      rewrite length_drop in Hn.
      simpl. auto with lia.
Qed.

(** Each group of a match holds characters of its class, as many as its
    quantifier asks for at least. *)
Lemma match_here_captures p s gs rest :
  match_here p s = Some (gs, rest) → Forall2 captured_by (captures p) gs.
Proof.
  revert s gs rest. induction p as [|x p IH]; intros s gs rest; simpl.
  - intros [= <- <-]. constructor.
  - destruct x as [l|q|q].
    + destruct (strip_prefix l s) as [s'|]; [|done]. apply IH.
    + destruct (repeat _ q s) as [[j [gs' rest']]|] eqn:Hq; [|done].
      intros [= <- <-]. apply repeat_Some in Hq as [_ Hk]. by eapply IH.
    + destruct (repeat _ q s) as [[j [gs' rest']]|] eqn:Hq; [|done].
      intros [= <- <-]. apply repeat_Some in Hq as [Hj Hk].
      constructor; [|by eapply IH]. pose proof (run_le (class q) s). split.
      * rewrite length_take; lia.
      * apply all_take_run. lia.
Qed.

Lemma match_at_captures p pos s m :
  match_at p pos s = Some m → Forall2 captured_by (captures p) (m_groups m).
Proof.
  unfold match_at. destruct (match_here p s) as [[gs rest]|] eqn:Hm; [|done].
  intros [= <-]. by eapply match_here_captures.
Qed.

Lemma match_at_Some p pos s m :
  match_at p pos s = Some m →
  m_start m = pos ∧ pos + min_len p ≤ m_end m ≤ pos + String.length s
  ∧ length (m_groups m) = groups_of p.
Proof.
  unfold match_at. destruct (match_here p s) as [[gs rest]|] eqn:Hm; [|done].
  intros [= <-]. simpl. apply match_here_Some in Hm as (n & -> & Hn & Hg).
  rewrite length_drop. auto with lia.
Qed.

(** [search_from] finds the match at the first position that has one. *)
Lemma search_from_Some p pos s m :
  search_from p pos s = Some m →
  pos ≤ m_start m ≤ pos + String.length s
  ∧ match_at p (m_start m) (drop (m_start m - pos) s) = Some m
  ∧ ∀ i, i < m_start m - pos → match_at p (pos + i) (drop i s) = None.
Proof.
  revert pos. induction s as [|a s IH]; intros pos; simpl.
  - destruct (match_at p pos "") as [m'|] eqn:Hm; [|done].
    intros [= ->]. pose proof Hm as (-> & _)%match_at_Some.
    rewrite Nat.sub_diag. simpl. auto with lia.
  - destruct (match_at p pos (String a s)) as [m'|] eqn:Hm.
    + intros [= ->]. pose proof Hm as (-> & _)%match_at_Some.
      rewrite Nat.sub_diag. simpl. auto with lia.
    + intros (Hpos & Hat & Hmin)%IH. split; [lia|].
      replace (m_start m - pos) with (S (m_start m - S pos)) by lia.
      split; [done|]. intros [|i] Hi.
      * by rewrite Nat.add_0_r.
      * simpl. replace (pos + S i) with (S pos + i) by lia.
        apply Hmin. lia.
Qed.

Lemma search_from_None p pos s :
  search_from p pos s = None →
  ∀ i, match_at p (pos + i) (drop i s) = None.
Proof.
  revert pos. induction s as [|a s IH]; intros pos; simpl.
  - destruct (match_at p pos "") eqn:Hm; [done|]. intros _ i.
    rewrite drop_empty. unfold match_at in *.
    by destruct (match_here p "") as [[??]|].
  - destruct (match_at p pos (String a s)) eqn:Hm; [done|].
    intros Hn [|i]; simpl.
    + by rewrite Nat.add_0_r.
    + replace (pos + S i) with (S pos + i) by lia. by apply IH.
Qed.

Lemma search_from_bounds p pos s m :
  search_from p pos s = Some m →
  pos ≤ m_start m ∧ m_start m + min_len p ≤ m_end m
  ∧ m_end m ≤ pos + String.length s
  ∧ length (m_groups m) = groups_of p.
Proof.
  intros (Hpos & Hat & _)%search_from_Some.
  apply match_at_Some in Hat as (_ & He & Hg). rewrite length_drop in He.
  lia.
Qed.

(** Passing over [skip] characters is a scan of what follows them. *)
Lemma finditer_from_skip p skip pos s :
  skip ≤ String.length s →
  finditer_from p skip pos s = finditer_from p 0 (pos + skip) (drop skip s).
Proof.
  revert pos s. induction skip as [|skip IH]; intros pos s Hs.
  - by rewrite Nat.add_0_r, drop_0.
  - destruct s as [|a s]; simpl in *; [lia|].
    rewrite IH by lia. f_equal. lia.
Qed.

(** [finditer] is the first [search] followed by the [finditer] of the
    text after its match. *)
Lemma finditer_from_search p pos s :
  0 < min_len p →
  finditer_from p 0 pos s =
    match search_from p pos s with
    | None => []
    | Some m => m :: finditer_from p 0 (m_end m) (drop (m_end m - pos) s)
    end.
Proof.
  intros Hp. revert pos. induction s as [|a s IH]; intros pos; simpl.
  - destruct (match_at p pos "") as [m|] eqn:Hm; [|done].
    apply match_at_Some in Hm. simpl in Hm. lia.
  - destruct (match_at p pos (String a s)) as [m|] eqn:Hm.
    + f_equal. pose proof Hm as (Hst & He & _)%match_at_Some.
      rewrite finditer_from_skip by (simpl in He; lia).
      replace (m_end m - pos) with (S (pred (m_end m - pos))) by lia.
      simpl. f_equal. lia.
    + rewrite IH. destruct (search_from p (S pos) s) as [m|] eqn:Hs; [|done].
      apply search_from_bounds in Hs as (? & ? & ? & _).
      replace (m_end m - pos) with (S (m_end m - S pos)) by lia. done.
Qed.

Lemma finditer_search p text :
  0 < min_len p →
  finditer p text =
    match search p text with
    | None => []
    | Some m => m :: finditer_from p 0 (m_end m) (drop (m_end m) text)
    end.
Proof.
  intros Hp. unfold finditer, search. rewrite finditer_from_search by done.
  destruct (search_from p 0 text); [|done]. by rewrite Nat.sub_0_r.
Qed.

(** The offset a scan starts from only shifts the positions it reports. *)
Lemma match_at_shift p d pos s :
  match_at p (d + pos) s = shift d <$> match_at p pos s.
Proof.
  unfold match_at. destruct (match_here p s) as [[gs rest]|]; [|done].
  simpl. unfold shift. simpl. f_equal. f_equal. lia.
Qed.

Lemma search_from_shift p d pos s :
  search_from p (d + pos) s = shift d <$> search_from p pos s.
Proof.
  revert pos. induction s as [|a s IH]; intros pos; simpl;
    rewrite match_at_shift; destruct (match_at p pos _); try done.
  by rewrite <-IH, Nat.add_succ_r.
Qed.

Lemma finditer_from_shift p d skip pos s :
  finditer_from p skip (d + pos) s = shift d <$> finditer_from p skip pos s.
Proof.
  revert skip pos. induction s as [|a s IH]; intros skip pos.
  - destruct skip; [|done]. simpl. rewrite match_at_shift.
    by destruct (match_at p pos "").
  - destruct skip as [|skip]; simpl.
    + rewrite match_at_shift. destruct (match_at p pos _) as [m|]; simpl.
      * f_equal. rewrite <-Nat.add_succ_r, IH. do 2 f_equal. lia.
      * by rewrite <-Nat.add_succ_r, IH.
    + by rewrite <-Nat.add_succ_r, IH.
Qed.

End ReFacts.

Module ReOrder.
Import Str StrFacts Re ReFacts.

Lemma in_order_weaken from from' ms :
  from' ≤ from → in_order from ms → in_order from' ms.
Proof. destruct ms as [|m ms]; simpl; [done|]. intros ? (? & ? & ?). auto with lia. Qed.

(** [finditer] reports its matches in textual order. *)
Lemma finditer_from_in_order p skip pos s :
  0 < min_len p → in_order (pos + skip) (finditer_from p skip pos s).
Proof.
  intros Hp. revert skip pos.
  induction s as [|a s IH]; intros [|skip] pos; simpl; try done.
  - destruct (match_at p pos "") as [m|] eqn:Hm; [|done].
    apply match_at_Some in Hm. simpl in Hm. lia.
  - destruct (match_at p pos (String a s)) as [m|] eqn:Hm.
    + pose proof Hm as (Hst & He & _)%match_at_Some. simpl.
      split; [lia|]. split; [lia|].
      eapply in_order_weaken; [|apply IH]. lia.
    + eapply in_order_weaken; [|apply IH]. lia.
  - eapply in_order_weaken; [|apply IH]. lia.
Qed.

Lemma finditer_in_order p text :
  0 < min_len p → in_order 0 (finditer p text).
Proof. intros. by apply (finditer_from_in_order p 0 0). Qed.

(** Every match [finditer] reports is the match of the pattern at the
    position it starts at. *)
Lemma finditer_from_elem p skip pos s m :
  m ∈ finditer_from p skip pos s →
  pos + skip ≤ m_start m
  ∧ match_at p (m_start m) (drop (m_start m - pos) s) = Some m.
Proof.
  revert skip pos. induction s as [|a s IH]; intros [|skip] pos; simpl.
  - destruct (match_at p pos "") as [m'|] eqn:Hm; [|by intros ?%elem_of_nil].
    intros ->%list_elem_of_singleton.
    pose proof Hm as (-> & _)%match_at_Some. by rewrite Nat.sub_diag; auto with lia.
  - by intros ?%elem_of_nil.
  - destruct (match_at p pos (String a s)) as [m'|] eqn:Hm.
    + intros [->|Hin]%elem_of_cons.
      * pose proof Hm as (-> & _)%match_at_Some.
        by rewrite Nat.sub_diag; auto with lia.
      * apply IH in Hin as [Hs Hat]. split; [lia|].
        by replace (m_start m - pos) with (S (m_start m - S pos)) by lia.
    + intros [Hs Hat]%IH. split; [lia|].
      by replace (m_start m - pos) with (S (m_start m - S pos)) by lia.
  - intros [Hs Hat]%IH. split; [lia|].
    by replace (m_start m - pos) with (S (m_start m - S pos)) by lia.
Qed.

Lemma finditer_elem p text m :
  m ∈ finditer p text →
  match_at p (m_start m) (drop (m_start m) text) = Some m.
Proof. intros [_ Hat]%finditer_from_elem. by rewrite Nat.sub_0_r in Hat. Qed.

Lemma finditer_groups p text m :
  m ∈ finditer p text → length (m_groups m) = groups_of p.
Proof. intros Hm%finditer_elem. by apply match_at_Some in Hm as (_ & _ & ?). Qed.

Lemma finditer_captures p text m :
  m ∈ finditer p text → Forall2 captured_by (captures p) (m_groups m).
Proof. intros Hm%finditer_elem. by eapply match_at_captures. Qed.

Lemma search_captures p text m :
  search p text = Some m → Forall2 captured_by (captures p) (m_groups m).
Proof. intros (_ & Hm & _)%search_from_Some. by eapply match_at_captures. Qed.

(** The scan of the text after a first match, on offsets of its own. *)
Lemma finditer_rest p d s :
  finditer_from p 0 d s = shift d <$> finditer p s.
Proof.
  unfold finditer. rewrite <-finditer_from_shift. by rewrite Nat.add_0_r.
Qed.

Lemma finditer_nil p text :
  0 < min_len p → finditer p text = [] ↔ search p text = None.
Proof.
  intros Hp. rewrite finditer_search by done.
  by destruct (search p text).
Qed.

End ReOrder.

(* ===================================================================== *)
(** ** The matcher finds a match exactly when there is one *)
(* ===================================================================== *)

Module ReMeaning.
Import Str StrFacts Re ReFacts.

Lemma run_ge_all c s t : all c s = true → String.length s ≤ run c (s +:+ t).
Proof.
  induction s as [|a s IH]; simpl; [lia|].
  intros [-> Hs]%andb_prop. specialize (IH Hs). lia.
Qed.

(** Soundness: what [match_here] consumes matches the pattern. *)
Lemma match_here_sound p s gs rest :
  match_here p s = Some (gs, rest) → ∃ m, s = m +:+ rest ∧ matches p m gs.
Proof.
  revert s gs rest. induction p as [|x p IH]; intros s gs rest; simpl.
  - intros [= <- <-]. exists "". split; [done|constructor].
  - destruct x as [l|q|q].
    + destruct (strip_prefix l s) as [s'|] eqn:Hl; [|done].
      apply strip_prefix_Some in Hl as ->.
      intros (m & -> & Hm)%IH. exists (l +:+ m).
      rewrite app_assoc. split; [done|].
      apply (matches_cons (Lit l) p l m [] gs); [constructor|done].
    + destruct (repeat _ q s) as [[j [gs' rest']]|] eqn:Hq; [|done].
      intros [= <- <-]. apply repeat_Some in Hq as [Hj Hk].
      apply IH in Hk as (m & Hs & Hm). exists (take j s +:+ m).
      rewrite app_assoc, <-Hs, take_drop. split; [done|].
      apply (matches_cons (Quant q) p (take j s) m [] gs'); [|done].
      constructor. pose proof (run_le (class q) s). split.
      * rewrite length_take; lia.
      * apply all_take_run. lia.
    + destruct (repeat _ q s) as [[j [gs' rest']]|] eqn:Hq; [|done].
      intros [= <- <-]. apply repeat_Some in Hq as [Hj Hk].
      apply IH in Hk as (m & Hs & Hm). exists (take j s +:+ m).
      rewrite app_assoc, <-Hs, take_drop. split; [done|].
      apply (matches_cons (Group q) p (take j s) m [take j s] gs'); [|done].
      constructor. pose proof (run_le (class q) s). split.
      * rewrite length_take; lia.
      * apply all_take_run. lia.
Qed.

(** Completeness: where a match of the pattern stands, [match_here] finds
    a match (the one backtracking reaches first). *)
Lemma match_here_complete p m gs rest :
  matches p m gs → is_Some (match_here p (m +:+ rest)).
Proof.
  intros Hm. revert rest.
  induction Hm as [|x p s1 s2 g1 g2 Hx _ IH]; intros rest; simpl; [done|].
  rewrite app_assoc. specialize (IH rest).
  assert (∀ q, captured_by q s1 →
    is_Some (repeat (match_here p) q (s1 +:+ s2 +:+ rest))) as Hrep.
  { intros q [Hlo Hall].
    destruct (repeat _ q _) as [r|] eqn:Hq; [done|].
    pose proof (repeat_None _ _ _ Hq (String.length s1)) as Hnone.
    rewrite drop_app_length in Hnone. rewrite Hnone in IH.
    - by destruct IH.
    - split; [done|]. by apply run_ge_all. }
  destruct Hx as [l|q s Hq|q s Hq].
  - by rewrite strip_prefix_app.
  - destruct (Hrep q Hq) as [[j [gs' rest']] ->]. done.
  - destruct (Hrep q Hq) as [[j [gs' rest']] ->]. done.
Qed.

(** [search] returns [None] exactly for the texts in which the pattern
    does not occur. *)
Lemma search_None_iff p text : search p text = None ↔ ¬ occurs p text.
Proof.
  unfold search. split.
  - intros Hn (pre & m & post & gs & -> & Hm).
    pose proof (search_from_None _ _ _ Hn (String.length pre)) as Hat.
    rewrite drop_app_length in Hat. unfold match_at in Hat.
    destruct (match_here_complete p m gs post Hm) as [[gs' rest] Hh].
    by rewrite Hh in Hat.
  - intros Hno. destruct (search_from p 0 text) as [mt|] eqn:Hs; [|done].
    destruct Hno. apply search_from_Some in Hs as (_ & Hat & _).
    unfold match_at in Hat.
    destruct (match_here p _) as [[gs rest]|] eqn:Hh; [|done].
    apply match_here_sound in Hh as (m & Hd & Hm).
    exists (take (m_start mt - 0) text), m, rest, gs. split; [|done].
    by rewrite <-Hd, take_drop.
Qed.

End ReMeaning.

(* ===================================================================== *)
(** ** Facts about the parser *)
(* ===================================================================== *)

Module ParserFacts.
Import Re ReFacts ReOrder ArtJniMethodParser.

Lemma for_each_app {A S} (l1 l2 : list A) (body : S → A → result S) st :
  for_each (l1 ++ l2) body st = st' ← for_each l1 body st; for_each l2 body st'.
Proof.
  revert st. induction l1 as [|x l1 IH]; intros st; simpl; [done|].
  destruct (body st x); simpl; [apply IH|done].
Qed.

Lemma min_len_patterns :
  0 < min_len class_name_pattern ∧ 0 < min_len static_function_pattern
  ∧ Forall (λ p, 0 < min_len p) (method_patterns ++ overload_method_patterns).
Proof.
  split; [vm_compute; lia|]. split; [vm_compute; lia|].
  repeat constructor; vm_compute; lia.
Qed.

(** *** [_get_class_name] by the number of markers *)

Lemma get_class_name_markers text :
  _get_class_name text =
    match markers text with
    | [] => Ok None
    | [m] => Ok (Some (Str.replace "/" "." (group 1 m)))
    | _ :: _ :: _ => Raise (AssertionError None)
    end.
Proof.
  destruct min_len_patterns as (Hp & _).
  unfold _get_class_name, markers. rewrite finditer_search by done.
  destruct (search class_name_pattern text) as [m|]; [|done].
  rewrite finditer_rest, finditer_search by done.
  by destruct (search class_name_pattern (Str.drop (m_end m) text)).
Qed.

(** *** The loops of [_get_methods] *)

Lemma append_method_eq cls sym acc m :
  append_method cls (class_base_name_of cls) sym acc m =
    if bound_to (class_base_name_of cls) m
    then Ok (acc ++ [record_of cls sym m])
    else Raise (AssertionError None).
Proof. unfold append_method, bound_to. by destruct (bool_decide _). Qed.

Lemma scan_matches cls sym ms acc :
  for_each ms (append_method cls (class_base_name_of cls) sym) acc =
    if forallb (bound_to (class_base_name_of cls)) ms
    then Ok (acc ++ (record_of cls sym <$> ms))
    else Raise (AssertionError None).
Proof.
  revert acc. induction ms as [|m ms IH]; intros acc.
  - simpl. by rewrite app_nil_r.
  - cbn [for_each forallb]. rewrite append_method_eq.
    destruct (bound_to _ m); simpl; [|done].
    rewrite IH. destruct (forallb _ ms); [|done].
    by rewrite <-app_assoc.
Qed.

Lemma scan_patterns text cls sym ps acc :
  for_each ps (λ methods p,
    for_each (finditer p text)
      (append_method cls (class_base_name_of cls) sym) methods) acc =
    let ms := p ← ps; finditer p text in
    if forallb (bound_to (class_base_name_of cls)) ms
    then Ok (acc ++ (record_of cls sym <$> ms))
    else Raise (AssertionError None).
Proof.
  revert acc. induction ps as [|p ps IH]; intros acc; simpl.
  - by rewrite app_nil_r.
  - rewrite scan_matches, forallb_app.
    destruct (forallb _ (finditer p text)); simpl; [|done].
    rewrite IH. simpl. destruct (forallb _ _); [|done].
    by rewrite fmap_app, <-app_assoc.
Qed.

Lemma get_methods_eq text cls :
  _get_methods text cls =
    if forallb (bound_to (class_base_name_of cls))
         (plain_declarations text ++ overloaded_declarations text)
    then Ok ((record_of cls 2 <$> plain_declarations text)
             ++ (record_of cls 3 <$> overloaded_declarations text))
    else Raise (AssertionError None).
Proof.
  unfold _get_methods. rewrite scan_patterns. cbv zeta.
  fold (plain_declarations text). rewrite forallb_app.
  destruct (forallb _ (plain_declarations text)); [|done].
  cbn [mbind result_bind andb]. rewrite scan_patterns. done.
Qed.

(** *** [_check_methods] *)

Lemma elem_of_static_function_names text x :
  x ∈ static_function_names_of text ↔
  ∃ m, m ∈ finditer static_function_pattern text ∧ group 1 m = x.
Proof.
  unfold static_function_names_of.
  generalize (finditer static_function_pattern text). intros ms.
  assert (∀ acc : gset string,
    x ∈ foldl (λ names m, names ∪ {[group 1 m]}) acc ms ↔
    x ∈ acc ∨ ∃ m, m ∈ ms ∧ group 1 m = x) as Hgen.
  { induction ms as [|m ms IH]; intros acc; simpl.
    - split; [auto|]. intros [?|(m & Hm & _)]; [done|].
      by apply elem_of_nil in Hm.
    - rewrite IH, elem_of_union, elem_of_singleton. split.
      + intros [[?|Hx]|(m' & ? & ?)]; [auto|right..].
        * exists m. split; [left|done].
        * exists m'. split; [by right|done].
      + intros [?|(m' & [->|?]%elem_of_cons & ?)]; [auto|auto|].
        right. by exists m'. }
  rewrite Hgen. split; [|auto]. intros [Hx|?]; [|done].
  by apply elem_of_empty in Hx.
Qed.

Lemma check_methods_eq file_path text methods :
  _check_methods file_path text methods =
    match List.find (λ method, negb (backed text method)) methods with
    | None => Ok ()
    | Some method => Raise (AssertionError (Some (not_static file_path method)))
    end.
Proof.
  unfold _check_methods.
  induction methods as [|method methods IH]; [done|].
  cbn [for_each List.find].
  change (bool_decide (native_method_name method ∈ _))
    with (backed text method).
  destruct (backed text method); [apply IH|done].
Qed.

(** *** [parse_methods] *)

Lemma replace_empty old new s : Str.replace old new s = "" → s = "".
Proof. by destruct s. Qed.

(** The class name of a marker is never empty, so that [not class_name]
    holds for [None] only. *)
Lemma marker_class_name m text :
  search class_name_pattern text = Some m →
  Str.replace "/" "." (group 1 m) ≠ "".
Proof.
  intros Hm%search_captures Hr%replace_empty.
  unfold group in Hr. simpl in *.
  apply Forall2_cons_inv_l in Hm as (g & gs & [Hlen _] & _ & Hg).
  rewrite Hg in Hr. simpl in Hr. rewrite Hr in Hlen. simpl in Hlen. lia.
Qed.

Lemma get_class_name_nonempty text cls :
  _get_class_name text = Ok (Some cls) → cls ≠ "".
Proof.
  unfold _get_class_name.
  destruct (search class_name_pattern text) as [m|] eqn:Hm; [|done].
  destruct (assert _); simpl; [|done]. intros [= <-].
  by eapply marker_class_name.
Qed.

Lemma parse_methods_registered file_path text cls :
  _get_class_name text = Ok (Some cls) →
  parse_methods (file_path, text) =
    methods ← _get_methods text cls;
    _ ← _check_methods file_path text methods;
    Ok methods.
Proof.
  intros Hcls. pose proof (get_class_name_nonempty _ _ Hcls).
  unfold parse_methods. rewrite Hcls. simpl. by destruct cls.
Qed.

Lemma parse_methods_eq file_path text :
  parse_methods (file_path, text) =
    match markers text with
    | [] => Ok []
    | [m] =>
        let cls := Str.replace "/" "." (group 1 m) in
        methods ← _get_methods text cls;
        _ ← _check_methods file_path text methods;
        Ok methods
    | _ :: _ :: _ => Raise (AssertionError None)
    end.
Proof.
  pose proof (get_class_name_markers text) as Hcls.
  destruct (markers text) as [|m [|m' ms]].
  - unfold parse_methods. by rewrite Hcls.
  - by apply parse_methods_registered.
  - unfold parse_methods. by rewrite Hcls.
Qed.

(** *** [collect_art_jni_methods] *)

Lemma collect_from files acc :
  for_each files (λ methods file_path,
    more ← parse_methods file_path; Ok (methods ++ more)) acc =
  more ← collect_art_jni_methods files; Ok (acc ++ more).
Proof.
  unfold collect_art_jni_methods. revert acc.
  induction files as [|f files IH]; intros acc; simpl.
  - by rewrite app_nil_r.
  - destruct (parse_methods f) as [ms|e]; simpl; [|done].
    rewrite (IH (acc ++ ms)), (IH ms).
    destruct (for_each files _ []); simpl; [|done].
    by rewrite app_assoc.
Qed.

Lemma collect_cons f files :
  collect_art_jni_methods (f :: files) =
    ms ← parse_methods f; more ← collect_art_jni_methods files;
    Ok (ms ++ more).
Proof.
  unfold collect_art_jni_methods at 1. simpl.
  destruct (parse_methods f) as [ms|e]; simpl; [|done].
  apply collect_from.
Qed.

Lemma collect_raises f files :
  f ∈ files → raises (parse_methods f) →
  raises (collect_art_jni_methods files).
Proof.
  induction files as [|f' files IH]; [by intros ?%elem_of_nil|].
  rewrite collect_cons. intros [->|Hin]%elem_of_cons Hf.
  - by destruct (parse_methods f').
  - destruct (parse_methods f'); simpl; [|done].
    specialize (IH Hin Hf). by destruct (collect_art_jni_methods files).
Qed.

Lemma collect_Ok files methods :
  collect_art_jni_methods files = Ok methods ↔
  ∃ per_file, Forall2 (λ f ms, parse_methods f = Ok ms) files per_file
              ∧ methods = concat per_file.
Proof.
  revert methods. induction files as [|f files IH]; intros methods.
  - split.
    + intros [= <-]. exists []. by split; [constructor|].
    + intros (per & ->%Forall2_nil_inv_l & ->). done.
  - rewrite collect_cons. split.
    + destruct (parse_methods f) as [ms|] eqn:Hf; simpl; [|done].
      destruct (collect_art_jni_methods files) as [more|] eqn:Hc; simpl; [|done].
      intros [= <-]. destruct (proj1 (IH more) eq_refl) as (per & Hall & ->).
      exists (ms :: per). by split; [constructor|].
    + intros (per & (ms & per' & Hf & Hall & ->)%Forall2_cons_inv_l & ->).
      rewrite Hf. simpl.
      rewrite (proj2 (IH (concat per'))) by eauto. done.
Qed.

End ParserFacts.

(* ===================================================================== *)
(** ** The sample inputs, run *)
(* ===================================================================== *)

Module SampleRuns.
Import ArtJniMethodParser Samples.

Example foo_cc_parsed :
  parse_methods ("Foo.cc", foo_cc)
  = Ok [{| class_name := "a.b.Foo"; java_method_name := "bar";
           native_method_name := "Foo_bar" |}].
Proof. vm_compute. reflexivity. Qed.

Example no_marker_cc_parsed : parse_methods ("x.cc", no_marker_cc) = Ok [].
Proof. vm_compute. reflexivity. Qed.

Example two_markers_cc_parsed :
  parse_methods ("x.cc", two_markers_cc) = Raise (AssertionError None).
Proof. vm_compute. reflexivity. Qed.

(** The lazy group of the marker stops at the first closing it can. *)
Example lazy_group_is_shortest :
  Re.search class_name_pattern
    ("REGISTER_NATIVE_METHODS(" +:+ quoted "a" +:+ ")" +:+ quoted ")")
  = Some {| Re.m_start := 0; Re.m_end := 28; Re.m_groups := ["a"] |}.
Proof. vm_compute. reflexivity. Qed.

(** The greedy [\w+] of a group gives back nothing it need not: the
    method name is the whole word, and the match ends after it. *)
Example greedy_group_is_longest :
  Re.finditer (Re.Quant (Re.Plus Re.space) :: Re.Lit "NATIVE_METHOD" :: method_s)
    " NATIVE_METHOD( Foo ,  barBaz9, x)"
  = [{| Re.m_start := 0; Re.m_end := 30; Re.m_groups := ["Foo"; "barBaz9"] |}].
Proof. vm_compute. reflexivity. Qed.

(** The name of a form must follow white space: neither the FAST_ nor the
    OVERLOADED_ form is a match of the plain one. *)
Example forms_are_apart :
  Re.finditer (Re.Quant (Re.Plus Re.space) :: Re.Lit "NATIVE_METHOD" :: method_s)
    " FAST_NATIVE_METHOD(Foo, a) OVERLOADED_NATIVE_METHOD(Foo, b, c, d)"
  = [].
Proof. vm_compute. reflexivity. Qed.

Example run_on_markers_cc_parsed :
  length (markers run_on_markers_cc) = 1
  ∧ parse_methods ("x.cc", run_on_markers_cc) = Ok [].
Proof. vm_compute. split; reflexivity. Qed.

Example wrong_class_cc_parsed :
  parse_methods ("x.cc", wrong_class_cc) = Raise (AssertionError None).
Proof. vm_compute. reflexivity. Qed.

Example missing_function_cc_parsed :
  parse_methods ("x.cc", missing_function_cc)
  = Raise (AssertionError (Some "Foo_baz isn't a static function in x.cc")).
Proof. vm_compute. reflexivity. Qed.

Example mixed_cc_parsed :
  parse_methods ("x.cc", mixed_cc)
  = Ok [{| class_name := "a.b.Foo"; java_method_name := "third";
           native_method_name := "Foo_third" |};
        {| class_name := "a.b.Foo"; java_method_name := "first";
           native_method_name := "Foo_first" |};
        {| class_name := "a.b.Foo"; java_method_name := "second";
           native_method_name := "Foo_secondI" |}].
Proof. vm_compute. reflexivity. Qed.

End SampleRuns.

(* ===================================================================== *)
(** ** Extraction: markers and faults *)
(* ===================================================================== *)

Module Extraction.
Import Re ReFacts ReOrder ArtJniMethodParser ParserFacts Samples.

(** *** What a registration marker is *)

Lemma all_dot_one_line (g : string) : Str.all dot g = true ↔ one_line g.
Proof.
  unfold one_line. induction g as [|a g IH]; simpl; [done|].
  rewrite andb_true_iff, orb_false_iff, IH.
  assert (dot a = true ↔ Ascii.eqb a "010"%char = false) as ->; [|done].
  destruct (Ascii.eqb_spec a "010"%char) as [->|Hne]; [done|].
  split; [done|]. intros _. unfold dot, code. apply negb_true_iff, N.eqb_neq.
  intros Ha. apply Hne. by rewrite <-(ascii_N_embedding a), Ha.
Qed.

(** The marker occurs in a text exactly when the text holds
    [REGISTER_NATIVE_METHODS("], a class identifier that is not empty and
    does not run over a line end, and [")]. *)
Lemma marker_occurs (text : string) :
  occurs class_name_pattern text ↔
  ∃ pre cls post,
    text = pre +:+ ("REGISTER_NATIVE_METHODS(" +:+ dquote) +:+ cls
           +:+ (dquote +:+ ")") +:+ post
    ∧ cls ≠ "" ∧ one_line cls.
Proof.
  split.
  - intros (pre & m & post & gs & -> & Hm). unfold class_name_pattern in Hm.
    inversion Hm as [|? ? l1 t1 ? ? Hl1 Ht1]; subst.
    inversion Hl1; subst.
    inversion Ht1 as [|? ? g t2 ? ? Hg Ht2]; subst.
    inversion Hg as [| |? ? [Hlen Hall]]; subst.
    inversion Ht2 as [|? ? l2 t3 ? ? Hl2 Ht3]; subst.
    inversion Hl2; subst. inversion Ht3; subst.
    exists pre, g, post. rewrite StrFacts.app_empty_r.
    rewrite !StrFacts.app_assoc. split; [done|].
    split; [|by apply all_dot_one_line].
    intros ->. simpl in Hlen. lia.
  - intros (pre & cls & post & -> & Hne & Hcls).
    exists pre, (("REGISTER_NATIVE_METHODS(" +:+ dquote) +:+ cls
                 +:+ (dquote +:+ ")") +:+ ""), post, ([] ++ [cls] ++ [] ++ []).
    split; [by rewrite !StrFacts.app_assoc|].
    unfold class_name_pattern. repeat constructor.
    + destruct cls; [done|simpl; lia].
    + by apply all_dot_one_line.
Qed.

(** No match of the marker: no occurrence of it. *)
Lemma no_marker_iff (text : string) :
  markers text = [] ↔ ¬ occurs class_name_pattern text.
Proof.
  destruct min_len_patterns as (Hp & _). unfold markers.
  by rewrite finditer_nil, ReMeaning.search_None_iff.
Qed.

(** C4. A text in which the registration marker has no match yields the
    empty list of records and raises nothing, whatever else is in the
    text. *)
Theorem C4_no_marker_no_records (file_path text : string) :
  markers text = [] → parse_methods (file_path, text) = Ok [].
Proof. intros Hm. by rewrite parse_methods_eq, Hm. Qed.

Lemma C4_no_marker_no_records_witness :
  markers no_marker_cc = []
  ∧ plain_declarations no_marker_cc ≠ []
  ∧ parse_methods ("x.cc", no_marker_cc) = Ok [].
Proof.
  split; [vm_compute; reflexivity|]. split; [by vm_compute|].
  apply (C4_no_marker_no_records "x.cc" no_marker_cc).
  vm_compute. reflexivity.
Defined.

(** C5. A text in which the registration marker matches more than once
    (matches counted as [finditer] reports them: left to right, each after
    the end of the one before) makes extraction raise the assertion error of
    [_get_class_name]; no records are returned. *)
Theorem C5_repeated_marker_faults (file_path text : string) :
  2 ≤ length (markers text) →
  parse_methods (file_path, text) = Raise (AssertionError None).
Proof.
  intros Hm. rewrite parse_methods_eq.
  destruct (markers text) as [|m [|m' ms]]; simpl in Hm; [lia..|done].
Qed.

Lemma C5_repeated_marker_faults_witness :
  2 ≤ length (markers two_markers_cc)
  ∧ parse_methods ("x.cc", two_markers_cc) = Raise (AssertionError None).
Proof.
  split; [vm_compute; lia|].
  apply (C5_repeated_marker_faults "x.cc" two_markers_cc).
  vm_compute. lia.
Defined.

(** C6. When the text registers a class ([m] is the marker that
    [_get_class_name] finds) and some declaration [d], plain or
    overloaded, names as its first argument another class than the short
    name of the registered one, extraction raises an assertion error: no
    record is produced for [d], nor for any other declaration. *)
Theorem C6_foreign_class_faults (file_path text : string) (m d : Match) :
  search class_name_pattern text = Some m →
  d ∈ plain_declarations text ++ overloaded_declarations text →
  group 1 d ≠ class_base_name_of (Str.replace "/" "." (group 1 m)) →
  parse_methods (file_path, text) = Raise (AssertionError None).
Proof.
  intros Hm Hd Hne. destruct min_len_patterns as (Hp & _).
  rewrite parse_methods_eq. unfold markers.
  rewrite finditer_search, Hm by done.
  destruct (finditer_from _ _ _ _) as [|m' ms]; [|done].
  cbv zeta. rewrite get_methods_eq.
  set (base := class_base_name_of _) in *.
  destruct (forallb _ _) eqn:Hall; [|done].
  rewrite forallb_forall in Hall.
  apply list_elem_of_In, Hall in Hd. unfold bound_to in Hd.
  by apply bool_decide_eq_true in Hd.
Qed.

Lemma C6_foreign_class_faults_witness :
  ∃ m d,
    search class_name_pattern wrong_class_cc = Some m
    ∧ d ∈ plain_declarations wrong_class_cc ++ overloaded_declarations wrong_class_cc
    ∧ group 1 d = "Other"
    ∧ class_base_name_of (Str.replace "/" "." (group 1 m)) = "Foo"
    ∧ parse_methods ("x.cc", wrong_class_cc) = Raise (AssertionError None).
Proof.
  eexists _, {| m_start := 107; m_end := 134; m_groups := ["Other"; "baz"] |}.
  split; [vm_compute; reflexivity|].
  split; [vm_compute; right; left|].
  split; [reflexivity|]. split; [vm_compute; reflexivity|].
  eapply (C6_foreign_class_faults "x.cc" wrong_class_cc).
  - vm_compute. reflexivity.
  - vm_compute. right. left.
  - by vm_compute.
Defined.

End Extraction.

(* ===================================================================== *)
(** ** Rendering *)
(* ===================================================================== *)

Module Rendering.
Import StrFacts.

Lemma lines_of_methods (acc : list string) (methods : list ArtJniMethod) :
  foldl (λ lines method, lines ++ [method_line method]) acc methods
  = acc ++ (method_line <$> methods).
Proof.
  revert acc. induction methods as [|method methods IH]; intros acc; simpl.
  - by rewrite app_nil_r.
  - by rewrite IH, <-List.app_assoc.
Qed.

Lemma art_jni_methods_to_str_eq (methods : list ArtJniMethod) :
  art_jni_methods_to_str methods
  = Str.join newline (header ++ (method_line <$> methods)).
Proof. unfold art_jni_methods_to_str. by rewrite lines_of_methods. Qed.

(** *** Lines *)

Lemma mem_append c s t : Str.mem c (s +:+ t) = Str.mem c s || Str.mem c t.
Proof.
  induction s as [|a s IH]; [done|]. rewrite app_cons. simpl.
  by rewrite IH, orb_assoc.
Qed.

Lemma split_one c s : Str.mem c s = false → Str.split c s = [s].
Proof.
  induction s as [|a s IH]; simpl; [done|].
  intros [Ha Hs]%orb_false_elim. by rewrite (IH Hs), Ha.
Qed.

Lemma split_nonempty c s : Str.split c s ≠ [].
Proof.
  induction s as [|a s IH]; simpl; [done|].
  destruct (Str.split c s); [done|]. by destruct (Ascii.eqb a c).
Qed.

Lemma split_append c s t :
  Str.mem c s = false →
  Str.split c (s +:+ String c t) = s :: Str.split c t.
Proof.
  induction s as [|a s IH]; simpl.
  - intros _. pose proof (split_nonempty c t).
    destruct (Str.split c t); [done|]. by rewrite Ascii.eqb_refl.
  - intros [Ha Hs]%orb_false_elim. by rewrite (IH Hs), Ha.
Qed.

Lemma split_join c (l : list string) :
  l ≠ [] → Forall (λ x, Str.mem c x = false) l →
  Str.split c (Str.join (String c "") l) = l.
Proof.
  induction l as [|x l IH]; [done|]. intros _ [Hx Hl]%Forall_cons.
  destruct l as [|y l]; [by apply split_one|].
  change (Str.join (String c "") (x :: y :: l))
    with (x +:+ String c "" +:+ Str.join (String c "") (y :: l)).
  change (String c "" +:+ ?t) with (String c t).
  rewrite split_append by done. by rewrite IH.
Qed.

Lemma one_line_method_line method :
  one_line_record method → one_line (method_line method).
Proof.
  intros (Hc & Hj & Hn). unfold one_line, method_line, format_line in *.
  rewrite !mem_append, Hc, Hj, Hn. by vm_compute.
Qed.

Lemma rendered_lines (methods : list ArtJniMethod) :
  Forall one_line_record methods →
  Str.split "010" (art_jni_methods_to_str methods)
  = header ++ (method_line <$> methods).
Proof.
  intros Hall. rewrite art_jni_methods_to_str_eq. apply split_join; [done|].
  apply Forall_app. split; [repeat constructor|].
  apply Forall_fmap. eapply Forall_impl; [done|].
  apply one_line_method_line.
Qed.

(** C7. The rendered text is the two header comments and then, for every
    record in order, the text
    [ART_JNI_METHOD("<class>.<method>", "art::<symbol>")], these pieces
    joined by single newlines; when no field of a record holds a newline,
    these pieces are the lines of the text, two and one per record.  For the
    one record of class a.b.Foo, method bar and symbol Foo_bar the text is
    the header and the one line with identifier a.b.Foo.bar and symbol
    art::Foo_bar. *)
Theorem C7_rendered_format (methods : list ArtJniMethod) :
  let line method :=
    "ART_JNI_METHOD(" +:+ dquote
    +:+ (class_name method +:+ "." +:+ java_method_name method)
    +:+ dquote +:+ ", " +:+ dquote
    +:+ ("art::" +:+ native_method_name method)
    +:+ dquote +:+ ")" in
  let lines :=
    ["// This file is generated by generate_art_jni_method_table.py.";
     "// clang-format off"] ++ (line <$> methods) in
  art_jni_methods_to_str methods = Str.join newline lines
  ∧ (Forall one_line_record methods →
     Str.split "010" (art_jni_methods_to_str methods) = lines
     ∧ length lines = 2 + length methods)
  ∧ art_jni_methods_to_str
      [{| class_name := "a.b.Foo"; java_method_name := "bar";
          native_method_name := "Foo_bar" |}]
    = "// This file is generated by generate_art_jni_method_table.py."
      +:+ newline +:+ "// clang-format off"
      +:+ newline +:+ "ART_JNI_METHOD(" +:+ dquote +:+ "a.b.Foo.bar" +:+ dquote
      +:+ ", " +:+ dquote +:+ "art::Foo_bar" +:+ dquote +:+ ")".
Proof.
  intros line lines.
  split; [apply art_jni_methods_to_str_eq|]. split; [|vm_compute; reflexivity].
  intros Hall. split; [by apply rendered_lines|].
  simpl. by rewrite length_fmap.
Qed.

Lemma C7_rendered_format_witness :
  Str.split "010"
    (art_jni_methods_to_str
       [{| class_name := "a.b.Foo"; java_method_name := "bar";
           native_method_name := "Foo_bar" |}])
  = ["// This file is generated by generate_art_jni_method_table.py.";
     "// clang-format off";
     "ART_JNI_METHOD(" +:+ dquote +:+ "a.b.Foo.bar" +:+ dquote
       +:+ ", " +:+ dquote +:+ "art::Foo_bar" +:+ dquote +:+ ")"].
Proof.
  apply (C7_rendered_format
           [{| class_name := "a.b.Foo"; java_method_name := "bar";
               native_method_name := "Foo_bar" |}]).
  repeat constructor.
Defined.

(** *** The end of the rendered text *)

Lemma last_cons a s : s ≠ "" → Str.last (String a s) = Str.last s.
Proof. by destruct s. Qed.

Lemma last_append s t : t ≠ "" → Str.last (s +:+ t) = Str.last t.
Proof.
  intros Ht. induction s as [|a s IH]; [done|].
  rewrite app_cons, last_cons; [done|]. by destruct s, t.
Qed.

Lemma append_ne_r s t : t ≠ "" → s +:+ t ≠ "".
Proof. intros Ht. destruct s; [done|]. by rewrite app_cons. Qed.

Lemma last_method_line method : Str.last (method_line method) = Some ")"%char.
Proof.
  unfold method_line, format_line.
  repeat (rewrite last_append by (repeat apply append_ne_r; done)).
  done.
Qed.

Lemma join_open_ended sep (l : list string) :
  l ≠ [] → Forall open_ended l → open_ended (Str.join sep l).
Proof.
  induction l as [|x l IH]; [done|]. intros _ [Hx Hl]%Forall_cons.
  destruct l as [|y l]; [done|].
  specialize (IH ltac:(done) Hl) as [Hne Hlast].
  change (Str.join sep (x :: y :: l)) with (x +:+ sep +:+ Str.join sep (y :: l)).
  split.
  - destruct x; [by destruct Hx|done].
  - rewrite last_append.
    + rewrite last_append; done.
    + intros Happ. by destruct sep.
Qed.

Lemma rendered_open_ended (methods : list ArtJniMethod) :
  open_ended (art_jni_methods_to_str methods).
Proof.
  rewrite art_jni_methods_to_str_eq. apply join_open_ended; [done|].
  apply Forall_app. split.
  - repeat constructor; by vm_compute.
  - apply Forall_fmap, Forall_forall. intros method _. split.
    + intros Heq. pose proof (last_method_line method) as Hl.
      by rewrite Heq in Hl.
    + by rewrite last_method_line.
Qed.

End Rendering.

(* ===================================================================== *)
(** ** The driver *)
(* ===================================================================== *)

Module Driver.
Import ArtJniMethodParser ParserFacts Rendering Samples.

Lemma main_raised check_only e w :
  collect_art_jni_methods (native_method_dir w) = Raise e →
  main check_only w = (Raised e, w).
Proof. intros Hc. unfold main. simpl. by rewrite Hc. Qed.

Lemma main_trace_raised check_only e w n st :
  st ∈ main_trace check_only n (Raised e, w) → st = (Raised e, w).
Proof.
  induction n as [|n IH]; simpl.
  - by intros ->%list_elem_of_singleton.
  - intros [->|Hin]%elem_of_cons; [done|]. by apply IH.
Qed.

(** A run whose collection raises goes from its first statement to the
    exception and nowhere else, with the world as it was. *)
Lemma main_trace_collect_raises check_only e w n st :
  collect_art_jni_methods (native_method_dir w) = Raise e →
  st ∈ main_trace check_only n (AtCollect, w) →
  st = (AtCollect, w) ∨ st = (Raised e, w).
Proof.
  intros Hc. destruct n as [|n]; simpl.
  - intros ->%list_elem_of_singleton. by left.
  - rewrite Hc. intros [->|Hin]%elem_of_cons; [by left|].
    right. by eapply main_trace_raised.
Qed.

Lemma main_check_only w methods :
  collect_art_jni_methods (native_method_dir w) = Ok methods →
  main true w =
    match OUTPUT_FILE w with
    | None => (Raised FileNotFoundError, w)
    | Some stored =>
        if bool_decide (art_jni_methods_to_str methods ≠ stored) then
          (Returned false, print "ART native methods have changed" w)
        else (Returned true, w)
    end.
Proof. intros Hc. unfold main. simpl. by rewrite Hc. Qed.

Lemma main_generate w methods :
  collect_art_jni_methods (native_method_dir w) = Ok methods →
  main false w = (Returned true, write_text (art_jni_methods_to_str methods) w).
Proof. intros Hc. unfold main. simpl. by rewrite Hc. Qed.

(** C1. When the records extracted from a file include a method whose
    native symbol is not among the static functions declared in the file's
    text, [parse_methods] raises the assertion error of [_check_methods];
    and a run over a directory that holds such a file ends with that kind of
    exception straight from its first statement: it never reaches the
    statement that renders the text nor the one that writes it, the world
    (stored table and standard output) stays as it was, and the exit status
    is 1. *)
Theorem C1_undefined_symbol_faults_before_output
    (file_path text cls : string) (methods : list ArtJniMethod)
    (method : ArtJniMethod) :
  _get_class_name text = Ok (Some cls) →
  _get_methods text cls = Ok methods →
  method ∈ methods →
  native_method_name method ∉ static_function_names_of text →
  (∃ culprit,
      culprit ∈ methods
      ∧ (native_method_name culprit ∉ static_function_names_of text)
      ∧ parse_methods (file_path, text)
        = Raise (AssertionError (Some
            (native_method_name culprit +:+ " isn't a static function in "
             +:+ file_path))))
  ∧ ∀ check_only w,
      (file_path, text) ∈ native_method_dir w →
      exit_status check_only w = 1%Z
      ∧ snd (main check_only w) = w
      ∧ ∀ n st, st ∈ main_trace check_only n (AtCollect, w) →
          snd st = w ∧ (fst st = AtCollect ∨ ∃ e, fst st = Raised e).
Proof.
  intros Hcls Hget Hin Hnot.
  assert (∃ culprit,
      culprit ∈ methods
      ∧ (native_method_name culprit ∉ static_function_names_of text)
      ∧ parse_methods (file_path, text)
        = Raise (AssertionError (Some (not_static file_path culprit))))
    as (culprit & Hc1 & Hc2 & Hparse).
  { rewrite (parse_methods_registered _ _ _ Hcls), Hget. simpl.
    rewrite check_methods_eq.
    destruct (List.find _ methods) as [culprit|] eqn:Hfind.
    - apply find_some in Hfind as [Hc Hb]. exists culprit.
      split; [by apply list_elem_of_In|]. split; [|done].
      unfold backed in Hb. apply negb_true_iff, bool_decide_eq_false in Hb.
      done.
    - apply list_elem_of_In in Hin.
      pose proof (find_none _ _ Hfind method Hin) as Hb.
      unfold backed in Hb. apply negb_false_iff, bool_decide_eq_true in Hb.
      done. }
  split; [by exists culprit|].
  intros check_only w Hfile.
  assert (raises (collect_art_jni_methods (native_method_dir w))) as Hr.
  { eapply collect_raises; [done|]. by rewrite Hparse. }
  destruct (collect_art_jni_methods (native_method_dir w)) as [|e] eqn:Hc;
    [done|].
  split; [|split].
  - unfold exit_status. by rewrite (main_raised _ e).
  - by rewrite (main_raised _ e).
  - intros n st Hst.
    apply (main_trace_collect_raises _ e _ _ _ Hc) in Hst as [->| ->]; simpl.
    + auto.
    + split; [done|]. right. by exists e.
Qed.

Lemma C1_undefined_symbol_faults_before_output_witness :
  ∃ methods method,
    _get_methods missing_function_cc "a.b.Foo" = Ok methods
    ∧ method ∈ methods
    ∧ native_method_name method = "Foo_baz"
    ∧ parse_methods ("x.cc", missing_function_cc)
      = Raise (AssertionError (Some "Foo_baz isn't a static function in x.cc"))
    ∧ exit_status false
        (world_of [("Foo.cc", foo_cc); ("x.cc", missing_function_cc)]
                  (Some "old")) = 1%Z.
Proof.
  eexists _, {| class_name := "a.b.Foo"; java_method_name := "baz";
                native_method_name := "Foo_baz" |}.
  split; [vm_compute; reflexivity|].
  split; [right; left|]. split; [done|].
  split; [vm_compute; reflexivity|].
  eapply (C1_undefined_symbol_faults_before_output
            "x.cc" missing_function_cc "a.b.Foo").
  - vm_compute. reflexivity.
  - vm_compute. reflexivity.
  - right. left.
  - by vm_compute.
  - right. left.
Defined.

End Driver.

(* ===================================================================== *)
(** ** Verify mode *)
(* ===================================================================== *)

Module VerifyMode.
Import ArtJniMethodParser ParserFacts Rendering Driver Samples MoreSamples.

(** *** What [read_text] makes of the stored characters *)

(** A carriage return and line feed, a carriage return alone, one before a
    carriage return and line feed, one after a line feed, and one at the
    end: each is read as one line feed. *)
Lemma read_text_line_ends :
  read_text (String "a" (String "013" (String "010" "b")))
  = String "a" (String "010" "b")
  ∧ read_text (String "a" (String "013" "b")) = String "a" (String "010" "b")
  ∧ read_text (String "a" (String "013" (String "013" (String "010" "b"))))
    = String "a" (String "010" (String "010" "b"))
  ∧ read_text (String "a" (String "010" (String "013" "b")))
    = String "a" (String "010" (String "010" "b"))
  ∧ read_text (String "a" (String "013" "")) = String "a" (String "010" "")
  ∧ "013"%char = ascii_of_nat 13 ∧ "010"%char = ascii_of_nat 10.
Proof. by vm_compute. Qed.

(** A text without carriage return is read as it is stored. *)
Lemma read_text_unchanged (s : string) :
  Str.mem "013" s = false → read_text s = s.
Proof.
  induction s as [|c s IH]; simpl; [done|].
  intros [Hc Hs]%orb_false_elim. by rewrite Hc, IH.
Qed.

(** No text that [read_text] returns holds a carriage return. *)
Lemma read_text_no_carriage_return (s : string) :
  Str.mem "013" (read_text s) = false.
Proof.
  assert (∀ n t, String.length t ≤ n → Str.mem "013" (read_text t) = false)
    as Hgen; [|by eapply Hgen].
  assert (∀ a t, Str.mem "013" (String a t)
                 = Ascii.eqb a "013" || Str.mem "013" t) as Hmem by done.
  intros n. induction n as [|n IH]; intros [|c t] Hlen;
    [done|simpl in Hlen; lia|done|].
  simpl in Hlen. destruct t as [|d t].
  - simpl. destruct (Ascii.eqb c "013") eqn:Hc; simpl; [done|by rewrite Hc].
  - assert (Str.mem "013" (read_text (String d t)) = false) as Hdt
      by (apply IH; lia).
    assert (Str.mem "013" (read_text t) = false) as Ht
      by (apply IH; simpl in Hlen; lia).
    change (read_text (String c (String d t)))
      with (if Ascii.eqb c "013"
            then if Ascii.eqb d "010" then String "010" (read_text t)
                 else String "010" (read_text (String d t))
            else String c (read_text (String d t))).
    destruct (Ascii.eqb c "013") eqn:Hc; [destruct (Ascii.eqb d "010")|].
    + by rewrite Hmem, Ht.
    + by rewrite Hmem, Hdt.
    + by rewrite Hmem, Hc, Hdt.
Qed.




(** C10. The rendered text never ends in a newline: its lines are joined
    by single newlines and nothing follows the last one, so for no records
    it is the two header lines alone.  Verify mode compares with exactly
    this text: a stored table that equals it passes, one that carries a
    newline after it does not. *)
Theorem C10_no_trailing_newline (methods : list ArtJniMethod) :
  Str.last (art_jni_methods_to_str methods) ≠ Some "010"%char
  ∧ art_jni_methods_to_str methods
    = Str.join newline (header ++ (method_line <$> methods))
  ∧ art_jni_methods_to_str []
    = "// This file is generated by generate_art_jni_method_table.py."
      +:+ newline +:+ "// clang-format off"
  ∧ ∀ w,
      collect_art_jni_methods (native_method_dir w) = Ok methods →
      (OUTPUT_FILE w = Some (art_jni_methods_to_str methods) →
       exit_status true w = 0%Z)
      ∧ (OUTPUT_FILE w = Some (art_jni_methods_to_str methods +:+ newline) →
         exit_status true w = 1%Z).
Proof.
  split; [apply rendered_open_ended|].
  split; [apply art_jni_methods_to_str_eq|]. split; [done|].
  intros w Hc. unfold exit_status. rewrite (main_check_only w methods Hc).
  split; intros ->.
  - by rewrite bool_decide_false by (by intros []).
  - rewrite bool_decide_true; [done|].
    intros Heq%(f_equal String.length).
    rewrite StrFacts.length_app in Heq. simpl in Heq. lia.
Qed.

Lemma C10_no_trailing_newline_witness :
  exit_status true
    (world_of [("Foo.cc", foo_cc)]
       (Some (art_jni_methods_to_str
                [{| class_name := "a.b.Foo"; java_method_name := "bar";
                    native_method_name := "Foo_bar" |}] +:+ newline))) = 1%Z.
Proof.
  destruct (C10_no_trailing_newline
              [{| class_name := "a.b.Foo"; java_method_name := "bar";
                  native_method_name := "Foo_bar" |}]) as (_ & _ & _ & Hv).
  eapply (Hv (world_of [("Foo.cc", foo_cc)] _)).
  - vm_compute. reflexivity.
  - reflexivity.
Defined.

End VerifyMode.

(* ===================================================================== *)
(** ** Class names *)
(* ===================================================================== *)

Module ClassNames.
Import Re ReFacts ReOrder ArtJniMethodParser ParserFacts Samples.

Lemma mem_replace (old new : ascii) (s : string) :
  old ≠ new → Str.mem old (Str.replace old new s) = false.
Proof.
  intros Hne. induction s as [|a s IH]; simpl; [done|]. rewrite IH.
  destruct (Ascii.eqb_spec a old) as [->|Ha].
  - destruct (Ascii.eqb_spec new old); [congruence|done].
  - destruct (Ascii.eqb_spec a old); [congruence|done].
Qed.

Lemma length_replace (old new : ascii) (s : string) :
  String.length (Str.replace old new s) = String.length s.
Proof. induction s as [|a s IH]; simpl; [done|]. by rewrite IH. Qed.

Lemma get_replace (old new : ascii) (s : string) (i : nat) :
  String.get i (Str.replace old new s)
  = (λ a, if Ascii.eqb a old then new else a) <$> String.get i s.
Proof.
  revert i. induction s as [|a s IH]; intros i; simpl; [done|].
  destruct i as [|i]; [done|]. apply IH.
Qed.

(** [rfind] gives -1 when the character does not occur, and otherwise the
    index of an occurrence with none after it. *)
Lemma rfind_from_spec (c : ascii) (i : Z) (s : string) :
  (0 ≤ i)%Z →
  (Str.rfind_from c i s = (-1)%Z ∧ Str.mem c s = false)
  ∨ ∃ pre post,
      s = pre +:+ String c post ∧ Str.mem c post = false
      ∧ Str.rfind_from c i s = (i + Z.of_nat (String.length pre))%Z.
Proof.
  revert i. induction s as [|a s IH]; intros i Hi; simpl; [by left|].
  destruct (IH (i + 1)%Z ltac:(lia)) as [[Hr Hm]|(pre & post & -> & Hm & Hr)].
  - rewrite Hr, Hm. simpl. destruct (Ascii.eqb_spec a c) as [->|Ha].
    + right. exists "", s. simpl. split; [done|]. split; [done|lia].
    + by left.
  - right. exists (String a pre), post. rewrite Hr.
    destruct (Z.leb_spec 0 (i + 1 + Z.of_nat (String.length pre))); [|lia].
    split; [done|]. split; [done|]. simpl String.length. lia.
Qed.

(** The short class name is what follows the last dot, or the whole name
    when it has no dot. *)
Lemma class_base_name_spec (cls : string) :
  Str.mem "." (class_base_name_of cls) = false
  ∧ ((Str.mem "." cls = false ∧ class_base_name_of cls = cls)
     ∨ ∃ pre, cls = pre +:+ "." +:+ class_base_name_of cls).
Proof.
  unfold class_base_name_of, Str.slice_from, Str.rfind.
  destruct (rfind_from_spec "." 0 cls ltac:(lia))
    as [[Hr Hm]|(pre & post & -> & Hm & Hr)]; rewrite Hr.
  - simpl. auto.
  - replace (Z.to_nat (0 + Z.of_nat (String.length pre) + 1))
      with (String.length pre + 1) by lia.
    rewrite <-StrFacts.drop_drop, StrFacts.drop_app_length. simpl.
    split; [done|]. right. by exists pre.
Qed.

Lemma parse_methods_class_name file_path text cls methods method :
  _get_class_name text = Ok (Some cls) →
  parse_methods (file_path, text) = Ok methods →
  method ∈ methods → class_name method = cls.
Proof.
  intros Hcls. rewrite (parse_methods_registered _ _ _ Hcls), get_methods_eq.
  destruct (forallb _ _); simpl; [|done].
  destruct (_check_methods _ _ _); simpl; [|done]. intros [= <-].
  by intros [(d & -> & _)%list_elem_of_fmap|(d & -> & _)%list_elem_of_fmap]%elem_of_app.
Qed.

(** C9. The class name that a registration marker gives is the captured
    identifier with every slash replaced by a dot and all other characters
    kept, so it holds no slash; every record parsed from the text carries
    this dotted name; and the short class name is the part of it after its
    last dot (all of it when it has none). *)
Theorem C9_class_name_dotted (text cls : string) :
  _get_class_name text = Ok (Some cls) →
  (∃ m, search class_name_pattern text = Some m
        ∧ cls = Str.replace "/" "." (group 1 m)
        ∧ String.length cls = String.length (group 1 m)
        ∧ ∀ i, String.get i cls
               = (λ a, if Ascii.eqb a "/" then "."%char else a)
                   <$> String.get i (group 1 m))
  ∧ Str.mem "/" cls = false
  ∧ (∀ file_path methods method,
       parse_methods (file_path, text) = Ok methods →
       method ∈ methods → class_name method = cls)
  ∧ Str.mem "." (class_base_name_of cls) = false
  ∧ ((Str.mem "." cls = false ∧ class_base_name_of cls = cls)
     ∨ ∃ pre, cls = pre +:+ "." +:+ class_base_name_of cls).
Proof.
  intros Hcls. split; [|split; [|split]].
  - unfold _get_class_name in Hcls.
    destruct (search class_name_pattern text) as [m|]; [|done].
    exists m. split; [done|].
    destruct (assert _); simpl in Hcls; [|done]. injection Hcls as <-.
    split; [done|]. split; [apply length_replace|]. intros i. apply get_replace.
  - unfold _get_class_name in Hcls.
    destruct (search class_name_pattern text) as [m|]; [|done].
    destruct (assert _); simpl in Hcls; [|done]. injection Hcls as <-.
    by apply mem_replace.
  - intros file_path methods method. by apply parse_methods_class_name.
  - apply class_base_name_spec.
Qed.

Lemma C9_class_name_dotted_witness :
  _get_class_name foo_cc = Ok (Some "a.b.Foo")
  ∧ Str.mem "/" "a.b.Foo" = false
  ∧ class_base_name_of "a.b.Foo" = "Foo".
Proof.
  split; [vm_compute; reflexivity|].
  split; [|vm_compute; reflexivity].
  apply (C9_class_name_dotted foo_cc "a.b.Foo"). vm_compute. reflexivity.
Defined.

End ClassNames.

(* ===================================================================== *)
(** ** The records of a file, and their order *)
(* ===================================================================== *)

Module Records.
Import Re ReFacts ReOrder ArtJniMethodParser ParserFacts Samples.

Lemma fmap_bind_list {A B C} (g : B → C) (f : A → list B) (l : list A) :
  g <$> (l ≫= f) = l ≫= (λ x, g <$> f x).
Proof.
  induction l as [|x l IH]; [done|].
  by rewrite !bind_cons, fmap_app, IH.
Qed.

Lemma records_by_form_eq text cls :
  records_by_form text cls
  = (record_of cls 2 <$> plain_declarations text)
    ++ (record_of cls 3 <$> overloaded_declarations text).
Proof.
  unfold records_by_form, plain_declarations, overloaded_declarations.
  by rewrite !fmap_bind_list.
Qed.

(** What [parse_methods] returns, when it returns. *)
Lemma parse_methods_Ok file_path text records :
  parse_methods (file_path, text) = Ok records →
  (markers text = [] ∧ records = [])
  ∨ ∃ m, markers text = [m]
         ∧ records = records_by_form text (Str.replace "/" "." (group 1 m)).
Proof.
  rewrite parse_methods_eq. destruct (markers text) as [|m [|m' ms]].
  - intros [= <-]. by left.
  - cbv zeta. rewrite get_methods_eq, <-records_by_form_eq.
    destruct (forallb _ _); simpl; [|done].
    destruct (_check_methods _ _ _); simpl; [|done].
    intros [= <-]. right. by exists m.
  - done.
Qed.

(** C3, as stated, fails: in [mixed_cc] the method [first] is declared
    before the method [third], and the record of [third] comes before the
    record of [first]. *)
Lemma C3_counterexample :
  parse_methods ("x.cc", mixed_cc)
  = Ok [{| class_name := "a.b.Foo"; java_method_name := "third";
           native_method_name := "Foo_third" |};
        {| class_name := "a.b.Foo"; java_method_name := "first";
           native_method_name := "Foo_first" |};
        {| class_name := "a.b.Foo"; java_method_name := "second";
           native_method_name := "Foo_secondI" |}]
  ∧ ¬ follows_declaration_order mixed_cc "a.b.Foo"
        [{| class_name := "a.b.Foo"; java_method_name := "third";
            native_method_name := "Foo_third" |};
         {| class_name := "a.b.Foo"; java_method_name := "first";
            native_method_name := "Foo_first" |};
         {| class_name := "a.b.Foo"; java_method_name := "second";
            native_method_name := "Foo_secondI" |}].
Proof.
  split; [vm_compute; reflexivity|]. intros Horder.
  specialize (Horder 2
    {| m_start := 161; m_end := 193; m_groups := ["Foo"; "first"] |} 2
    {| m_start := 260; m_end := 287; m_groups := ["Foo"; "third"] |} 1 0).
  assert (1 < 0); [|lia]. apply Horder.
  - vm_compute. right. left.
  - vm_compute. left.
  - simpl. lia.
  - vm_compute. reflexivity.
  - vm_compute. reflexivity.
Qed.

(** C3, amended.  The records of a run are those of its files, file after
    file in the order the files are iterated; the records of one file that
    registers a class are grouped by declaration form, in the order the
    forms are scanned (NATIVE_METHOD, NATIVE_METHODAUTOSIG, then the same
    with FAST_ and with CRITICAL_, then the three OVERLOADED_ forms), and
    within one form they follow the order of the declarations in the
    text. *)
Theorem C3_record_order (files : list (string * string))
    (methods : list ArtJniMethod) :
  collect_art_jni_methods files = Ok methods →
  ∃ per_file,
    methods = concat per_file
    ∧ Forall2 (λ file records,
         parse_methods file = Ok records
         ∧ ((markers file.2 = [] ∧ records = [])
            ∨ ∃ m, markers file.2 = [m]
                   ∧ records
                     = records_by_form file.2
                         (Str.replace "/" "." (group 1 m))))
       files per_file
    ∧ ∀ p text,
        p ∈ method_patterns ++ overload_method_patterns →
        in_order 0 (finditer p text).
Proof.
  intros (per_file & Hall & ->)%collect_Ok. exists per_file.
  split; [done|]. split.
  - eapply Forall2_impl; [done|]. intros [file_path text] records Hp.
    split; [done|]. by eapply parse_methods_Ok.
  - intros p text Hp. apply finditer_in_order.
    destruct min_len_patterns as (_ & _ & Hall').
    by rewrite Forall_forall in Hall'; apply Hall'.
Qed.

Lemma C3_record_order_witness :
  ∃ per_file,
    [{| class_name := "a.b.Foo"; java_method_name := "bar";
        native_method_name := "Foo_bar" |};
     {| class_name := "a.b.Foo"; java_method_name := "third";
        native_method_name := "Foo_third" |};
     {| class_name := "a.b.Foo"; java_method_name := "first";
        native_method_name := "Foo_first" |};
     {| class_name := "a.b.Foo"; java_method_name := "second";
        native_method_name := "Foo_secondI" |}] = concat per_file
    ∧ length per_file = 3.
Proof.
  destruct (C3_record_order
              [("Foo.cc", foo_cc); ("none.cc", no_marker_cc); ("x.cc", mixed_cc)]
              _ ltac:(vm_compute; reflexivity)) as (per_file & Hc & Hall & _).
  exists per_file. split; [done|].
  by apply Forall2_length in Hall.
Defined.

End Records.

(* ===================================================================== *)
(** ** One marker, N declarations *)
(* ===================================================================== *)

Module Declarations.
Import Re ReFacts ReOrder ArtJniMethodParser ParserFacts Records Samples.

(** C2, as stated, fails: [foo_cc] has one registration marker and one
    valid declaration, of the plain form, and the symbol of its record is
    not the short class name followed by the method name: an underscore
    stands between them. *)
Lemma C2_counterexample :
  markers foo_cc
  = [{| m_start := 150; m_end := 184; m_groups := ["a/b/Foo"] |}]
  ∧ plain_declarations foo_cc
    = [{| m_start := 73; m_end := 98; m_groups := ["Foo"; "bar"] |}]
  ∧ overloaded_declarations foo_cc = []
  ∧ class_base_name_of (Str.replace "/" "." "a/b/Foo") = "Foo"
  ∧ "Foo_bar" ∈ static_function_names_of foo_cc
  ∧ parse_methods ("Foo.cc", foo_cc)
    = Ok [{| class_name := "a.b.Foo"; java_method_name := "bar";
             native_method_name := "Foo_bar" |}]
  ∧ native_method_name
      {| class_name := "a.b.Foo"; java_method_name := "bar";
         native_method_name := "Foo_bar" |}
    ≠ "Foo" +:+ "bar".
Proof.
  split; [vm_compute; reflexivity|].
  split; [vm_compute; reflexivity|]. split; [vm_compute; reflexivity|].
  split; [vm_compute; reflexivity|]. split; [by vm_compute|].
  split; [vm_compute; reflexivity|]. by vm_compute.
Qed.

(** C2, amended.  For a text with exactly one registration marker in which
    every declaration, plain or overloaded, names the short name of the
    registered class and has its native function declared static in the
    text, extraction returns one record per declaration, N records for N
    declarations.  The record of a plain declaration has as symbol the
    short class name, an underscore and the method name; the record of an
    overloaded declaration has the short class name, an underscore and the
    function name the declaration gives. *)
Theorem C2_one_record_per_declaration (file_path text : string) (m : Match) :
  markers text = [m] →
  let cls := Str.replace "/" "." (group 1 m) in
  let short := class_base_name_of cls in
  (∀ d, d ∈ plain_declarations text ++ overloaded_declarations text →
        group 1 d = short) →
  (∀ d, d ∈ plain_declarations text →
        short +:+ "_" +:+ group 2 d ∈ static_function_names_of text) →
  (∀ d, d ∈ overloaded_declarations text →
        short +:+ "_" +:+ group 3 d ∈ static_function_names_of text) →
  ∃ plain overloaded,
    parse_methods (file_path, text) = Ok (plain ++ overloaded)
    ∧ length (plain ++ overloaded)
      = length (plain_declarations text)
        + length (overloaded_declarations text)
    ∧ Forall2 (λ d record,
         class_name record = cls
         ∧ java_method_name record = group 2 d
         ∧ native_method_name record
           = short +:+ "_" +:+ java_method_name record)
       (plain_declarations text) plain
    ∧ Forall2 (λ d record,
         class_name record = cls
         ∧ java_method_name record = group 2 d
         ∧ native_method_name record = short +:+ "_" +:+ group 3 d)
       (overloaded_declarations text) overloaded.
Proof.
  intros Hm cls short Hbound Hplain Hover.
  exists (record_of cls 2 <$> plain_declarations text),
         (record_of cls 3 <$> overloaded_declarations text).
  split; [|split; [|split]].
  - rewrite parse_methods_eq, Hm. cbv zeta. fold cls.
    rewrite get_methods_eq. fold short.
    rewrite (proj2 (forallb_forall _ _)); cycle 1.
    { intros d Hd%list_elem_of_In. apply bool_decide_eq_true.
      symmetry. by apply Hbound. }
    simpl. rewrite check_methods_eq.
    destruct (List.find _ _) as [culprit|] eqn:Hfind; [|done].
    apply find_some in Hfind as [Hin Hb]. exfalso.
    unfold backed in Hb. apply negb_true_iff, bool_decide_eq_false in Hb.
    apply Hb. apply list_elem_of_In, elem_of_app in Hin.
    destruct Hin as [(d & -> & Hd)%list_elem_of_fmap
                    |(d & -> & Hd)%list_elem_of_fmap]; simpl; auto.
  - by rewrite length_app, !length_fmap.
  - apply Forall2_fmap_r, Forall_Forall2_diag, Forall_forall. by intros d _.
  - apply Forall2_fmap_r, Forall_Forall2_diag, Forall_forall. by intros d _.
Qed.

Lemma C2_one_record_per_declaration_witness :
  ∃ plain overloaded,
    parse_methods ("x.cc", mixed_cc) = Ok (plain ++ overloaded)
    ∧ length (plain ++ overloaded) = 3.
Proof.
  destruct (C2_one_record_per_declaration "x.cc" mixed_cc
              {| m_start := 302; m_end := 336; m_groups := ["a/b/Foo"] |})
    as (plain & overloaded & Hp & Hlen & _).
  - vm_compute. reflexivity.
  - intros d Hd. vm_compute in Hd.
    repeat (apply elem_of_cons in Hd as [->|Hd]; [vm_compute; reflexivity|]).
    by apply elem_of_nil in Hd.
  - intros d Hd. vm_compute in Hd.
    repeat (apply elem_of_cons in Hd as [->|Hd]; [by vm_compute|]).
    by apply elem_of_nil in Hd.
  - intros d Hd. vm_compute in Hd.
    repeat (apply elem_of_cons in Hd as [->|Hd]; [by vm_compute|]).
    by apply elem_of_nil in Hd.
  - exists plain, overloaded. split; [done|]. rewrite Hlen. vm_compute. reflexivity.
Defined.

End Declarations.

(* ===================================================================== *)
(** ** The lines of a generated table *)
(* ===================================================================== *)

Module Lines.
Import Re ReFacts ReOrder ArtJniMethodParser ParserFacts Rendering ClassNames
  Records.

Lemma all_one_line (c : ascii → bool) (g : string) :
  c "010"%char = false → Str.all c g = true → one_line g.
Proof.
  intros Hc. unfold one_line. induction g as [|a g IH]; simpl; [done|].
  intros [Ha Hg]%andb_prop. rewrite (IH Hg).
  destruct (Ascii.eqb_spec a "010"%char) as [->|]; [congruence|done].
Qed.

Lemma one_line_replace (old new : ascii) (s : string) :
  new ≠ "010"%char → one_line s → one_line (Str.replace old new s).
Proof.
  intros Hnew. unfold one_line. induction s as [|a s IH]; simpl; [done|].
  intros [Ha Hs]%orb_false_elim. rewrite (IH Hs).
  destruct (Ascii.eqb a old); [|by rewrite Ha].
  by destruct (Ascii.eqb_spec new "010"%char).
Qed.

Lemma one_line_base_name (cls : string) :
  one_line cls → one_line (class_base_name_of cls).
Proof.
  unfold one_line.
  destruct (class_base_name_spec cls) as [_ [[_ ->]|(pre & Hcls)]]; [done|].
  rewrite Hcls at 1. rewrite !mem_append.
  by intros [_ [_ ?]%orb_false_elim]%orb_false_elim.
Qed.

(** The groups of a declaration are words. *)
Lemma declaration_groups p text d i :
  p ∈ method_patterns ++ overload_method_patterns →
  d ∈ finditer p text → one_line (group i d).
Proof.
  intros Hp Hd%finditer_captures.
  assert (Forall (λ q, class q "010"%char = false) (captures p)) as Hq.
  { clear Hd. revert p Hp. apply Forall_forall.
    unfold method_patterns, overload_method_patterns, names. simpl.
    repeat constructor. }
  assert (Forall one_line (m_groups d)) as Hg.
  { revert Hq. induction Hd as [|q g qs gs [_ Hall] _ IH]; [constructor|].
    intros [Hq Hqs]%Forall_cons. constructor; [|by apply IH].
    by eapply all_one_line; [|exact Hall]. }
  unfold group. destruct (decide (pred i < length (m_groups d))) as [Hi|Hi].
  - rewrite Forall_forall in Hg. apply Hg, list_elem_of_In, nth_In. done.
  - rewrite nth_overflow by lia. done.
Qed.

Lemma one_line_record_of p text cls sym d :
  one_line cls →
  p ∈ method_patterns ++ overload_method_patterns →
  d ∈ finditer p text → one_line_record (record_of cls sym d).
Proof.
  intros Hcls Hp Hd. split; [done|]. split; simpl.
  - by eapply declaration_groups.
  - unfold one_line. rewrite !mem_append.
    rewrite (one_line_base_name cls Hcls).
    by rewrite (declaration_groups p text d sym Hp Hd).
Qed.

(** No field of an extracted record holds a newline. *)
Lemma parsed_one_line file records :
  parse_methods file = Ok records → Forall one_line_record records.
Proof.
  destruct file as [file_path text].
  intros [[_ ->]|(m & Hm & ->)]%parse_methods_Ok; [constructor|].
  assert (one_line (Str.replace "/" "." (group 1 m))) as Hcls.
  { apply one_line_replace; [done|].
    assert (m ∈ finditer class_name_pattern text) as Hin.
    { unfold markers in Hm. rewrite Hm. left. }
    apply finditer_captures in Hin. unfold group. simpl in *.
    apply Forall2_cons_inv_l in Hin as (g & gs & [_ Hall] & _ & ->).
    simpl. by eapply all_one_line; [|exact Hall]. }
  unfold records_by_form. apply Forall_app. split.
  - apply Forall_forall. intros r (p & Hr & Hp)%list_elem_of_bind.
    apply list_elem_of_fmap in Hr as (d & -> & Hd).
    eapply one_line_record_of; [done| |done]. apply elem_of_app. by left.
  - apply Forall_forall. intros r (p & Hr & Hp)%list_elem_of_bind.
    apply list_elem_of_fmap in Hr as (d & -> & Hd).
    eapply one_line_record_of; [done| |done]. apply elem_of_app. by right.
Qed.

Lemma collected_one_line files methods :
  collect_art_jni_methods files = Ok methods → Forall one_line_record methods.
Proof.
  intros (per_file & Hall & ->)%collect_Ok.
  induction Hall as [|file records files per_file Hp _ IH]; [constructor|].
  simpl. apply Forall_app. split; [by eapply parsed_one_line|done].
Qed.

(** The table generated from a directory has two lines and one per
    record. *)
Lemma generated_lines files methods :
  collect_art_jni_methods files = Ok methods →
  Str.split "010" (art_jni_methods_to_str methods)
  = header ++ (method_line <$> methods).
Proof.
  intros Hc%collected_one_line. by apply rendered_lines.
Qed.

End Lines.

(* ===================================================================== *)
(** ** Generate mode, and what a run leaves alone *)
(* ===================================================================== *)

Module GenerateMode.
Import ArtJniMethodParser ParserFacts Rendering Driver Samples MoreSamples.

Lemma main_cases (check_only : bool) (w : world) :
  (∃ e, collect_art_jni_methods (native_method_dir w) = Raise e
        ∧ main check_only w = (Raised e, w))
  ∨ (∃ methods, collect_art_jni_methods (native_method_dir w) = Ok methods
        ∧ check_only = false
        ∧ main check_only w
          = (Returned true, write_text (art_jni_methods_to_str methods) w))
  ∨ (∃ methods, collect_art_jni_methods (native_method_dir w) = Ok methods
        ∧ check_only = true ∧ OUTPUT_FILE w = None
        ∧ main check_only w = (Raised FileNotFoundError, w))
  ∨ (∃ methods, collect_art_jni_methods (native_method_dir w) = Ok methods
        ∧ check_only = true
        ∧ OUTPUT_FILE w = Some (art_jni_methods_to_str methods)
        ∧ main check_only w = (Returned true, w))
  ∨ (∃ methods stored,
        collect_art_jni_methods (native_method_dir w) = Ok methods
        ∧ check_only = true ∧ OUTPUT_FILE w = Some stored
        ∧ stored ≠ art_jni_methods_to_str methods
        ∧ main check_only w
          = (Returned false, print "ART native methods have changed" w)).
Proof.
  destruct (collect_art_jni_methods (native_method_dir w))
    as [methods|e] eqn:Hc.
  - right. destruct check_only.
    + rewrite (main_check_only w methods Hc).
      destruct (OUTPUT_FILE w) as [stored|] eqn:Hout.
      * destruct (bool_decide_reflect (art_jni_methods_to_str methods ≠ stored))
          as [Hne|Heq].
        -- do 3 right. exists methods, stored. by auto.
        -- apply dec_stable in Heq. subst stored. do 2 right. left.
           exists methods. by auto.
      * right. left. exists methods. by auto.
    + left. exists methods. by rewrite (main_generate w methods Hc).
  - left. exists e. by rewrite (main_raised _ e w Hc).
Qed.

(** X1. Whatever the mode and the outcome, a run never changes the directory
    it reads; it prints at most the one message, and only when a check
    fails with status 1; it replaces the stored table only in generate mode
    and only by the text rendered from a collection that succeeded; and a
    run that ends with a status other than 0 leaves the stored table as it
    was. *)
Theorem main_frame (check_only : bool) (w : world) :
  native_method_dir (snd (main check_only w)) = native_method_dir w
  ∧ (stdout (snd (main check_only w)) = stdout w
     ∨ (check_only = true ∧ exit_status check_only w = 1%Z
        ∧ stdout (snd (main check_only w))
          = stdout w ++ ["ART native methods have changed"]))
  ∧ (OUTPUT_FILE (snd (main check_only w)) = OUTPUT_FILE w
     ∨ (check_only = false ∧ exit_status check_only w = 0%Z
        ∧ ∃ methods,
            collect_art_jni_methods (native_method_dir w) = Ok methods
            ∧ OUTPUT_FILE (snd (main check_only w))
              = Some (art_jni_methods_to_str methods)))
  ∧ (exit_status check_only w ≠ 0%Z →
     OUTPUT_FILE (snd (main check_only w)) = OUTPUT_FILE w).
Proof.
  unfold exit_status.
  destruct (main_cases check_only w)
    as [(e & Hc & ->)|[(methods & Hc & -> & ->)|[(methods & Hc & -> & Ho & ->)
       |[(methods & Hc & -> & Ho & ->)|(methods & stored & Hc & -> & Ho & Hne & ->)]]]];
    simpl; repeat split; auto.
  - right. repeat split; [done..|]. by exists methods.
  - done.
Qed.

(** X2. In generate mode the exit status is 0 exactly when the collection
    succeeds; the stored table then holds the rendered text, whatever it
    held before and whether or not it existed, and nothing is printed. *)
Theorem generate_mode (w : world) :
  (exit_status false w = 0%Z ↔
     ∃ methods, collect_art_jni_methods (native_method_dir w) = Ok methods)
  ∧ ∀ methods,
      collect_art_jni_methods (native_method_dir w) = Ok methods →
      fst (main false w) = Returned true
      ∧ OUTPUT_FILE (snd (main false w)) = Some (art_jni_methods_to_str methods)
      ∧ stdout (snd (main false w)) = stdout w.
Proof.
  unfold exit_status.
  destruct (collect_art_jni_methods (native_method_dir w))
    as [methods|e] eqn:Hc.
  - rewrite (main_generate w methods Hc). simpl. split.
    + split; [by exists methods|done].
    + by intros methods' [= <-].
  - rewrite (main_raised false e w Hc). simpl. split.
    + split; [done|]. by intros (methods & [=]).
    + by intros methods [=].
Qed.

Lemma generate_mode_witness :
  OUTPUT_FILE (snd (main false (world_of [("Foo.cc", foo_cc)] None)))
  = Some (art_jni_methods_to_str
            [{| class_name := "a.b.Foo"; java_method_name := "bar";
                native_method_name := "Foo_bar" |}]).
Proof.
  eapply (generate_mode (world_of [("Foo.cc", foo_cc)] None)).
  vm_compute. reflexivity.
Defined.

(** X3. A generate run that succeeds leaves a world in which a check passes and
    changes nothing, and in which a second generate run writes the same
    table again. *)
Theorem generate_then_check (w : world) :
  exit_status false w = 0%Z →
  exit_status true (snd (main false w)) = 0%Z
  ∧ snd (main true (snd (main false w))) = snd (main false w)
  ∧ snd (main false (snd (main false w))) = snd (main false w).
Proof.
  unfold exit_status.
  destruct (collect_art_jni_methods (native_method_dir w))
    as [methods|e] eqn:Hc.
  - intros _. rewrite (main_generate w methods Hc). simpl.
    set (w' := write_text _ w).
    assert (collect_art_jni_methods (native_method_dir w') = Ok methods)
      as Hc' by done.
    rewrite (main_check_only w' methods Hc'), (main_generate w' methods Hc').
    simpl. rewrite bool_decide_false by (by intros []). done.
  - by rewrite (main_raised false e w Hc).
Qed.

Lemma generate_then_check_witness :
  exit_status true
    (snd (main false (world_of [("Foo.cc", foo_cc)] (Some "stale")))) = 0%Z.
Proof.
  apply (generate_then_check (world_of [("Foo.cc", foo_cc)] (Some "stale"))).
  vm_compute. reflexivity.
Defined.

End GenerateMode.

(* ===================================================================== *)
(** ** The collection over a directory *)
(* ===================================================================== *)

Module Collection.
Import Re ArtJniMethodParser ParserFacts Rendering Driver Records Samples
  MoreSamples.

Lemma collect_app (files1 files2 : list (string * string)) :
  collect_art_jni_methods (files1 ++ files2) =
    methods1 ← collect_art_jni_methods files1;
    methods2 ← collect_art_jni_methods files2;
    Ok (methods1 ++ methods2).
Proof.
  induction files1 as [|f files1 IH]; simpl.
  - by destruct (collect_art_jni_methods files2).
  - rewrite !collect_cons, IH. destruct (parse_methods f); simpl; [|done].
    destruct (collect_art_jni_methods files1); simpl; [|done].
    destruct (collect_art_jni_methods files2); simpl; [|done].
    by rewrite List.app_assoc.
Qed.

(** The collection succeeds exactly when every file parses, and then it is
    the records of the files, file after file. *)
Lemma collect_Ok_iff (files : list (string * string))
    (methods : list ArtJniMethod) :
  collect_art_jni_methods files = Ok methods ↔
  Forall (λ f, ¬ raises (parse_methods f)) files
  ∧ methods = files ≫= records_of_file.
Proof.
  revert methods. induction files as [|f files IH]; intros methods.
  - split; [intros [= <-]; by split|]. by intros [_ ->].
  - rewrite collect_cons, Forall_cons, bind_cons. unfold records_of_file at 1.
    destruct (parse_methods f) as [ms|e]; simpl.
    + destruct (collect_art_jni_methods files) as [more|e'] eqn:Hc; simpl.
      * destruct (proj1 (IH more) eq_refl) as [Hall ->]. split.
        -- intros [= <-]. by auto.
        -- by intros [_ ->].
      * split; [done|]. intros [[_ Hall] ->].
        by pose proof (proj2 (IH _) (conj Hall eq_refl)).
    + split; [done|]. by intros [[[] _] _].
Qed.

(** X5. The collection stops at the first file, in the order of iteration,
    whose parsing raises, and raises what that file raised; the files
    before it parsed, the files after it are not looked at. *)
Theorem collect_raises_first (files : list (string * string)) (e : exn) :
  collect_art_jni_methods files = Raise e ↔
  ∃ before file after,
    files = before ++ file :: after
    ∧ Forall (λ f, ¬ raises (parse_methods f)) before
    ∧ parse_methods file = Raise e.
Proof.
  induction files as [|f files IH].
  - split; [done|]. by intros ([|??] & ? & ? & ? & _).
  - rewrite collect_cons. destruct (parse_methods f) as [ms|e'] eqn:Hf; simpl.
    + split.
      * destruct (collect_art_jni_methods files) as [more|e''] eqn:Hc;
          simpl; [done|]. intros [= ->].
        destruct (proj1 IH eq_refl) as (before & file & after & -> & Hb & Hr).
        exists (f :: before), file, after. split; [done|].
        split; [|done]. constructor; [|done]. rewrite Hf. by intros [].
      * intros ([|f' before] & file & after & Heq & Hb & Hr);
          simplify_eq/=; [congruence|].
        apply Forall_cons in Hb as [_ Hb].
        rewrite (proj2 IH); [done|]. by exists before, file, after.
    + split.
      * intros [= ->]. exists [], f, files. by auto.
      * intros ([|f' before] & file & after & Heq & Hb & Hr); simplify_eq/=.
        -- congruence.
        -- apply Forall_cons in Hb as [Hb _]. rewrite Hf in Hb. by destruct Hb.
Qed.

Lemma collect_raises_first_witness :
  collect_art_jni_methods
    [("Foo.cc", foo_cc); ("x.cc", missing_function_cc);
     ("y.cc", two_markers_cc)]
  = Raise (AssertionError (Some "Foo_baz isn't a static function in x.cc")).
Proof.
  apply collect_raises_first.
  exists [("Foo.cc", foo_cc)], ("x.cc", missing_function_cc),
         [("y.cc", two_markers_cc)].
  split; [reflexivity|]. split.
  - repeat constructor. by vm_compute.
  - vm_compute. reflexivity.
Defined.

(** X6. Collecting over two lists of files, one after the other, gives the
    records of the first followed by those of the second; and a file
    without registration marker can be added to a directory or taken from
    it, anywhere, without any effect on the collection. *)
Theorem collect_skips_unregistered
    (files1 files2 : list (string * string)) (file : string * string) :
  markers file.2 = [] →
  collect_art_jni_methods (files1 ++ file :: files2)
  = collect_art_jni_methods (files1 ++ files2)
  ∧ collect_art_jni_methods (files1 ++ files2) =
      (methods1 ← collect_art_jni_methods files1;
       methods2 ← collect_art_jni_methods files2;
       Ok (methods1 ++ methods2)).
Proof.
  intros Hm. split; [|apply collect_app].
  rewrite !collect_app, collect_cons. destruct file as [file_path text].
  rewrite parse_methods_eq. simpl in Hm. rewrite Hm. simpl.
  by destruct (collect_art_jni_methods files2).
Qed.

Lemma collect_skips_unregistered_witness :
  collect_art_jni_methods
    [("Foo.cc", foo_cc); ("plain.cc", plain_cc); ("Bar.cc", bar_cc)]
  = collect_art_jni_methods [("Foo.cc", foo_cc); ("Bar.cc", bar_cc)].
Proof.
  apply (collect_skips_unregistered
           [("Foo.cc", foo_cc)] [("Bar.cc", bar_cc)] ("plain.cc", plain_cc)).
  vm_compute. reflexivity.
Defined.

(** X7. The order in which the directory is iterated decides the order of the
    records and nothing else: over the same files in another order the
    collection succeeds again, with the same records in another order. *)
Theorem collect_permutation (files files' : list (string * string))
    (methods : list ArtJniMethod) :
  files ≡ₚ files' →
  collect_art_jni_methods files = Ok methods →
  ∃ methods',
    collect_art_jni_methods files' = Ok methods' ∧ methods ≡ₚ methods'.
Proof.
  intros Hp [Hall ->]%collect_Ok_iff.
  exists (files' ≫= records_of_file). split.
  - apply collect_Ok_iff. split; [|done]. by rewrite <-Hp.
  - by rewrite Hp.
Qed.

Lemma collect_permutation_witness :
  ∃ methods',
    collect_art_jni_methods [("Bar.cc", bar_cc); ("Foo.cc", foo_cc)]
    = Ok methods'
    ∧ [{| class_name := "a.b.Foo"; java_method_name := "bar";
          native_method_name := "Foo_bar" |};
       {| class_name := "x.Bar"; java_method_name := "size";
          native_method_name := "Bar_size" |};
       {| class_name := "x.Bar"; java_method_name := "clear";
          native_method_name := "Bar_clear" |}] ≡ₚ methods'.
Proof.
  apply (collect_permutation [("Foo.cc", foo_cc); ("Bar.cc", bar_cc)]).
  - apply Permutation_swap.
  - vm_compute. reflexivity.
Defined.

(** X8. A directory none of whose files registers a class -- the empty
    directory among them -- collects no records, and generating from it
    writes the two header lines and nothing else. *)
Theorem unregistered_directory (w : world) :
  Forall (λ file, markers file.2 = []) (native_method_dir w) →
  collect_art_jni_methods (native_method_dir w) = Ok []
  ∧ main false w
    = (Returned true,
       write_text
         ("// This file is generated by generate_art_jni_method_table.py."
          +:+ newline +:+ "// clang-format off") w).
Proof.
  intros Hall.
  assert (collect_art_jni_methods (native_method_dir w) = Ok []) as Hc.
  { induction Hall as [|[file_path text] files Hm _ IH]; [done|].
    rewrite collect_cons, parse_methods_eq. simpl in Hm. rewrite Hm. simpl.
    by rewrite IH. }
  split; [done|]. by rewrite (main_generate w [] Hc).
Qed.

Lemma unregistered_directory_witness :
  collect_art_jni_methods
    [("plain.cc", plain_cc); ("none.cc", no_marker_cc)] = Ok [].
Proof.
  apply (unregistered_directory
           (world_of [("plain.cc", plain_cc); ("none.cc", no_marker_cc)] None)).
  repeat constructor.
Defined.

End Collection.

(* ===================================================================== *)
(** ** When a file parses, and what its records are like *)
(* ===================================================================== *)

Module ParseTable.
Import Re ReFacts ReOrder ArtJniMethodParser ParserFacts Rendering ClassNames
  Records Lines Samples MoreSamples.

Lemma check_methods_Ok (file_path text : string)
    (methods : list ArtJniMethod) :
  _check_methods file_path text methods = Ok () ↔
  ∀ method, method ∈ methods →
    native_method_name method ∈ static_function_names_of text.
Proof.
  rewrite check_methods_eq.
  destruct (List.find _ methods) as [culprit|] eqn:Hfind.
  - apply find_some in Hfind as [Hin Hb]. split; [done|]. intros Hall.
    unfold backed in Hb. apply negb_true_iff, bool_decide_eq_false in Hb.
    destruct Hb. by apply Hall, list_elem_of_In.
  - split; [|done]. intros _ method Hin%list_elem_of_In.
    pose proof (find_none _ _ Hfind method Hin) as Hb.
    unfold backed in Hb. by apply negb_false_iff, bool_decide_eq_true in Hb.
Qed.

(** What the text and the records are like when [parse_methods] returns. *)
Lemma parse_methods_Ok_inv (file_path text : string)
    (records : list ArtJniMethod) :
  parse_methods (file_path, text) = Ok records →
  (markers text = [] ∧ records = [])
  ∨ ∃ m, markers text = [m]
      ∧ (∀ d, d ∈ plain_declarations text ++ overloaded_declarations text →
              group 1 d
              = class_base_name_of (Str.replace "/" "." (group 1 m)))
      ∧ (∀ record, record ∈ records →
              native_method_name record ∈ static_function_names_of text)
      ∧ records = records_by_form text (Str.replace "/" "." (group 1 m)).
Proof.
  rewrite parse_methods_eq. destruct (markers text) as [|m [|m' ms]]; [| |done].
  - intros [= <-]. by left.
  - cbv zeta. rewrite get_methods_eq, <-records_by_form_eq.
    destruct (forallb _ _) eqn:Hb; simpl; [|done].
    destruct (_check_methods _ _ _) as [[]|e] eqn:Hc; simpl; [|done].
    intros [= <-]. right. exists m. split; [done|].
    split; [|split; [by apply (check_methods_Ok file_path)|done]].
    rewrite forallb_forall in Hb.
    intros d Hd%list_elem_of_In%Hb. unfold bound_to in Hd.
    by apply bool_decide_eq_true in Hd.
Qed.

(** X9. [_check_methods] passes exactly when the symbol of every record is the
    name of a static function of the text; when it raises, the message
    names the first record, in the order of the list, whose symbol is not,
    and the file. *)
Theorem check_methods_exact (file_path text : string)
    (methods : list ArtJniMethod) :
  (_check_methods file_path text methods = Ok () ↔
     ∀ method, method ∈ methods →
       native_method_name method ∈ static_function_names_of text)
  ∧ ∀ e, _check_methods file_path text methods = Raise e →
      ∃ before method after,
        methods = before ++ method :: after
        ∧ (∀ earlier, earlier ∈ before →
             native_method_name earlier ∈ static_function_names_of text)
        ∧ (native_method_name method ∉ static_function_names_of text)
        ∧ e = AssertionError (Some
                (native_method_name method +:+ " isn't a static function in "
                 +:+ file_path)).
Proof.
  rewrite check_methods_eq.
  induction methods as [|method methods [IH1 IH2]]; simpl.
  - split; [|done]. split; [|done]. by intros _ method ?%elem_of_nil.
  - unfold backed at 1 3.
    destruct (bool_decide_reflect
      (native_method_name method ∈ static_function_names_of text))
      as [Hin|Hnot]; simpl.
    + split.
      * rewrite IH1. split.
        -- intros Hall m [->|?]%elem_of_cons; auto.
        -- intros Hall m ?. apply Hall. by right.
      * intros e (before & culprit & after & -> & Hb & Hc & ->)%IH2.
        exists (method :: before), culprit, after. split; [done|].
        split; [|done]. intros m [->|?]%elem_of_cons; auto.
    + split.
      * split; [done|]. intros Hall. destruct Hnot. apply Hall. by left.
      * intros e [= <-]. exists [], method, methods. split; [done|].
        split; [|done]. by intros m ?%elem_of_nil.
Qed.

Lemma check_methods_exact_witness :
  _check_methods "Foo.cc" Samples.foo_cc
    [{| class_name := "a.b.Foo"; java_method_name := "bar";
        native_method_name := "Foo_bar" |}] = Ok ().
Proof.
  apply check_methods_exact. intros method ->%list_elem_of_singleton.
  by vm_compute.
Defined.

(** X10. [parse_methods] returns records in two cases and no other: the text
    has no registration marker, and the records are none; or it has exactly
    one, every declaration names the short name of its class, the symbol of
    every record is a static function of the text, and the records are
    those of the declarations, form by form. *)
Theorem parse_methods_Ok_iff (file_path text : string)
    (records : list ArtJniMethod) :
  parse_methods (file_path, text) = Ok records ↔
  (markers text = [] ∧ records = [])
  ∨ ∃ m, markers text = [m]
      ∧ (∀ d, d ∈ plain_declarations text ++ overloaded_declarations text →
              group 1 d
              = class_base_name_of (Str.replace "/" "." (group 1 m)))
      ∧ (∀ record, record ∈ records →
              native_method_name record ∈ static_function_names_of text)
      ∧ records = records_by_form text (Str.replace "/" "." (group 1 m)).
Proof.
  split; [apply parse_methods_Ok_inv|].
  rewrite parse_methods_eq.
  intros [[-> ->]|(m & -> & Hbound & Hbacked & ->)]; [done|].
  cbv zeta. rewrite get_methods_eq, <-records_by_form_eq.
  rewrite (proj2 (forallb_forall _ _)); cycle 1.
  { intros d Hd%list_elem_of_In%Hbound. by apply bool_decide_eq_true. }
  simpl. by rewrite (proj2 (check_methods_Ok file_path text _) Hbacked).
Qed.

Lemma parse_methods_Ok_iff_witness :
  parse_methods ("Bar.cc", bar_cc)
  = Ok [{| class_name := "x.Bar"; java_method_name := "size";
           native_method_name := "Bar_size" |};
        {| class_name := "x.Bar"; java_method_name := "clear";
           native_method_name := "Bar_clear" |}].
Proof.
  apply parse_methods_Ok_iff. right.
  exists {| m_start := 209; m_end := 241; m_groups := ["x/Bar"] |}.
  split; [vm_compute; reflexivity|]. split; [|split].
  - intros d Hd. vm_compute in Hd.
    repeat (apply elem_of_cons in Hd as [->|Hd]; [vm_compute; reflexivity|]).
    by apply elem_of_nil in Hd.
  - intros record Hr.
    repeat (apply elem_of_cons in Hr as [->|Hr]; [by vm_compute|]).
    by apply elem_of_nil in Hr.
  - vm_compute. reflexivity.
Defined.

End ParseTable.

(* ===================================================================== *)
(** ** The shape of extracted records *)
(* ===================================================================== *)

Module RecordShape.
Import Re ReFacts ReOrder ArtJniMethodParser ParserFacts Rendering ClassNames
  Records Lines ParseTable Samples MoreSamples.

Lemma captured_word (g : string) : captured_by (Plus word) g → word_name g.
Proof.
  intros [Hlen Hall]. split; [|done]. intros ->. simpl in Hlen. lia.
Qed.

(** A plain declaration captures two words, an overloaded one three. *)
Lemma plain_declaration_groups text d :
  d ∈ plain_declarations text →
  ∃ g1 g2, m_groups d = [g1; g2] ∧ word_name g1 ∧ word_name g2.
Proof.
  intros (p & Hd & Hp)%list_elem_of_bind. apply finditer_captures in Hd.
  unfold method_patterns, names in Hp. simpl in Hp.
  repeat (apply elem_of_cons in Hp as [->|Hp]; [
    simpl in Hd;
    apply Forall2_cons_inv_l in Hd as (g1 & gs1 & H1 & Hd & ->);
    apply Forall2_cons_inv_l in Hd as (g2 & gs2 & H2 & Hd & ->);
    apply Forall2_nil_inv_l in Hd as ->;
    exists g1, g2; by auto using captured_word|]).
  by apply elem_of_nil in Hp.
Qed.

Lemma overloaded_declaration_groups text d :
  d ∈ overloaded_declarations text →
  ∃ g1 g2 g3,
    m_groups d = [g1; g2; g3] ∧ word_name g1 ∧ word_name g2 ∧ word_name g3.
Proof.
  intros (p & Hd & Hp)%list_elem_of_bind. apply finditer_captures in Hd.
  unfold overload_method_patterns, names in Hp. simpl in Hp.
  repeat (apply elem_of_cons in Hp as [->|Hp]; [
    simpl in Hd;
    apply Forall2_cons_inv_l in Hd as (g1 & gs1 & H1 & Hd & ->);
    apply Forall2_cons_inv_l in Hd as (g2 & gs2 & H2 & Hd & ->);
    apply Forall2_cons_inv_l in Hd as (g3 & gs3 & H3 & Hd & ->);
    apply Forall2_nil_inv_l in Hd as ->;
    exists g1, g2, g3; by auto using captured_word|]).
  by apply elem_of_nil in Hp.
Qed.

(** X11. Every record that [parse_methods] returns carries the class name of
    the file's one registration, which is not empty and holds neither a
    slash nor a line end; its method name is a word that is not empty; its
    symbol is the short class name, an underscore and such a word (the
    method name itself for a plain declaration), and is the name of a
    static function of the text. *)
Theorem parsed_record_shape (file_path text : string)
    (records : list ArtJniMethod) (record : ArtJniMethod) :
  parse_methods (file_path, text) = Ok records →
  record ∈ records →
  ∃ cls sym,
    _get_class_name text = Ok (Some cls)
    ∧ cls ≠ "" ∧ Str.mem "/" cls = false ∧ one_line cls
    ∧ class_name record = cls
    ∧ word_name (java_method_name record)
    ∧ word_name sym
    ∧ native_method_name record = class_base_name_of cls +:+ "_" +:+ sym
    ∧ native_method_name record ∈ static_function_names_of text.
Proof.
  intros [[_ ->]|(m & Hm & Hbound & Hbacked & ->)]%parse_methods_Ok_inv Hin.
  { by apply elem_of_nil in Hin. }
  set (cls := Str.replace "/" "." (group 1 m)) in *.
  assert (_get_class_name text = Ok (Some cls)) as Hcls.
  { by rewrite get_class_name_markers, Hm. }
  assert (one_line cls) as Hline.
  { apply one_line_replace; [done|].
    assert (m ∈ finditer class_name_pattern text) as Hmin.
    { unfold markers in Hm. rewrite Hm. left. }
    apply finditer_captures in Hmin. unfold group. simpl in *.
    apply Forall2_cons_inv_l in Hmin as (g & gs & [_ Hall] & _ & ->).
    simpl. by eapply all_one_line; [|exact Hall]. }
  pose proof (Hbacked record Hin) as Hb.
  rewrite records_by_form_eq in Hin.
  apply elem_of_app in Hin as [(d & -> & Hd)%list_elem_of_fmap
                              |(d & -> & Hd)%list_elem_of_fmap].
  - apply plain_declaration_groups in Hd as (g1 & g2 & Hg & H1 & H2).
    assert (group 2 d = g2) as Hg2 by (unfold group; by rewrite Hg).
    exists cls, g2. simpl in *. rewrite Hg2 in *.
    split; [done|]. split; [by eapply get_class_name_nonempty|].
    split; [by apply mem_replace|]. by auto 10.
  - apply overloaded_declaration_groups in Hd
      as (g1 & g2 & g3 & Hg & H1 & H2 & H3).
    assert (group 2 d = g2) as Hg2 by (unfold group; by rewrite Hg).
    assert (group 3 d = g3) as Hg3 by (unfold group; by rewrite Hg).
    exists cls, g3. simpl in *. rewrite Hg2, Hg3 in *.
    split; [done|]. split; [by eapply get_class_name_nonempty|].
    split; [by apply mem_replace|]. by auto 10.
Qed.

Lemma parsed_record_shape_witness :
  ∃ cls sym,
    _get_class_name mixed_cc = Ok (Some cls)
    ∧ word_name sym
    ∧ "Foo_secondI" = class_base_name_of cls +:+ "_" +:+ sym.
Proof.
  destruct (parsed_record_shape "x.cc" mixed_cc
    [{| class_name := "a.b.Foo"; java_method_name := "third";
        native_method_name := "Foo_third" |};
     {| class_name := "a.b.Foo"; java_method_name := "first";
        native_method_name := "Foo_first" |};
     {| class_name := "a.b.Foo"; java_method_name := "second";
        native_method_name := "Foo_secondI" |}]
    {| class_name := "a.b.Foo"; java_method_name := "second";
       native_method_name := "Foo_secondI" |})
    as (cls & sym & Hcls & _ & _ & _ & _ & _ & Hsym & Hnative & _).
  - vm_compute. reflexivity.
  - right. right. left.
  - exists cls, sym. by auto.
Defined.

(** X12. The table generated from a directory has exactly two lines and one per
    record: no record that extraction produces breaks a line. *)
Theorem generated_table_lines (files : list (string * string))
    (methods : list ArtJniMethod) :
  collect_art_jni_methods files = Ok methods →
  Forall one_line_record methods
  ∧ Str.split "010" (art_jni_methods_to_str methods)
    = header ++ (method_line <$> methods)
  ∧ length (Str.split "010" (art_jni_methods_to_str methods))
    = 2 + length methods.
Proof.
  intros Hc. pose proof (collected_one_line _ _ Hc) as Hall.
  split; [done|]. rewrite (rendered_lines methods Hall). split; [done|].
  rewrite length_app, length_fmap. done.
Qed.

Lemma generated_table_lines_witness :
  length (Str.split "010"
    (art_jni_methods_to_str
       [{| class_name := "a.b.Foo"; java_method_name := "bar";
           native_method_name := "Foo_bar" |};
        {| class_name := "x.Bar"; java_method_name := "size";
           native_method_name := "Bar_size" |};
        {| class_name := "x.Bar"; java_method_name := "clear";
           native_method_name := "Bar_clear" |}])) = 5.
Proof.
  apply (generated_table_lines [("Foo.cc", foo_cc); ("Bar.cc", bar_cc)]).
  vm_compute. reflexivity.
Defined.

End RecordShape.

(* ===================================================================== *)
(** ** Which registration [_get_class_name] reads *)
(* ===================================================================== *)

Module Registration.
Import Str StrFacts Re ReFacts ReOrder ReMeaning ArtJniMethodParser ParserFacts
  Extraction Samples MoreSamples.

Lemma occurs_registers (text : string) :
  occurs class_name_pattern text ↔ ∃ pre cls post, registers text pre cls post.
Proof. apply marker_occurs. Qed.

Lemma registers_matches (cls : string) :
  cls ≠ "" → one_line cls →
  matches class_name_pattern (marker_open +:+ cls +:+ marker_close +:+ "")
          ([] ++ [cls] ++ [] ++ []).
Proof.
  intros Hne Hcls. unfold class_name_pattern. repeat constructor.
  - destruct cls; [done|simpl; lia].
  - by apply all_dot_one_line.
Qed.

(** Where the registration stands, the marker matches. *)
Lemma registers_match_here (text pre cls post : string) :
  registers text pre cls post →
  is_Some (match_here class_name_pattern (drop (String.length pre) text)).
Proof.
  intros (-> & Hne & Hcls). rewrite drop_app_length.
  pose proof (match_here_complete _ _ _ post (registers_matches cls Hne Hcls))
    as Hm.
  by rewrite !app_assoc, app_empty_l in Hm.
Qed.

(** What a match of the marker at the head of [s] says about [s]. *)
Lemma marker_match_here (s : string) (gs : list string) (rest : string) :
  match_here class_name_pattern s = Some (gs, rest) →
  ∃ g, gs = [g] ∧ s = marker_open +:+ g +:+ marker_close +:+ rest
       ∧ g ≠ "" ∧ one_line g
       ∧ ∀ g' rest', g +:+ marker_close +:+ rest
                     = g' +:+ marker_close +:+ rest' →
                     g' ≠ "" → String.length g ≤ String.length g'.
Proof.
  unfold class_name_pattern. cbn [match_here].
  destruct (strip_prefix _ s) as [s1|] eqn:Hopen; [|done].
  apply strip_prefix_Some in Hopen as ->.
  destruct (repeat _ _ s1) as [[j [gs' rest']]|] eqn:Hrep; [|done].
  intros [= <- <-]. unfold repeat in Hrep. cbn [lazy at_least class] in Hrep.
  destruct (run dot s1 <? 1) eqn:Hrun; [done|]. apply Nat.ltb_ge in Hrun.
  apply take_more_Some in Hrep as (Hj & Hk & Hmin).
  destruct (strip_prefix (dquote +:+ ")") (drop j s1)) as [s2|] eqn:Hclose;
    [|done].
  injection Hk as <- <-. apply strip_prefix_Some in Hclose.
  pose proof (run_le dot s1) as Hle.
  exists (take j s1). split; [done|]. split; [|split; [|split]].
  - unfold marker_open, marker_close.
    by rewrite <-Hclose, take_drop.
  - intros Hg%(f_equal String.length). rewrite length_take in Hg by lia.
    simpl in Hg. lia.
  - apply all_dot_one_line, all_take_run. lia.
  - intros g' rest' Heq Hne.
    destruct (decide (String.length g' < String.length (take j s1)))
      as [Hlt|]; [|lia]. exfalso.
    rewrite length_take in Hlt by lia.
    assert (1 ≤ String.length g') as Hpos.
    { destruct g'; [done|simpl; lia]. }
    specialize (Hmin (String.length g') ltac:(lia)).
    assert (drop (String.length g') s1 = marker_close +:+ rest') as Hd.
    { rewrite <-(take_drop j s1), Hclose.
      unfold marker_close in Heq. rewrite Heq. apply drop_app_length. }
    rewrite Hd in Hmin. unfold marker_close in Hmin.
    by rewrite strip_prefix_app in Hmin.
Qed.

(** X13. [_get_class_name] returns [None] exactly for the texts that hold no
    registration anywhere. *)
Theorem get_class_name_None_iff (text : string) :
  _get_class_name text = Ok None ↔
  ¬ ∃ pre cls post, registers text pre cls post.
Proof.
  rewrite <-occurs_registers, <-no_marker_iff, get_class_name_markers.
  destruct (markers text) as [|m [|m' ms]]; by split.
Qed.

(** X14. When [_get_class_name] returns a class name, it has read it from the
    leftmost registration of the text, whose identifier ends at the first
    closing literal that follows its first character; the name is that
    identifier with its slashes made dots; and the text after that
    registration holds no other. *)
Theorem get_class_name_Some (text cls : string) :
  _get_class_name text = Ok (Some cls) →
  ∃ pre g post,
    registers text pre g post
    ∧ cls = Str.replace "/" "." g
    ∧ (∀ pre' g' post', registers text pre' g' post' →
         String.length pre ≤ String.length pre')
    ∧ (∀ g' post', g +:+ marker_close +:+ post
                   = g' +:+ marker_close +:+ post' →
         g' ≠ "" → String.length g ≤ String.length g')
    ∧ ¬ ∃ pre' g' post', registers post pre' g' post'.
Proof.
  unfold _get_class_name.
  destruct (search class_name_pattern text) as [m|] eqn:Hs; [|done].
  destruct (bool_decide_reflect
    (search class_name_pattern (drop (m_end m) text) = None)) as [Hnone|];
    simpl; [|done].
  intros [= <-].
  apply search_from_Some in Hs as ([_ Hstart] & Hat & Hleft).
  rewrite Nat.sub_0_r in *. unfold match_at in Hat.
  destruct (match_here _ _) as [[gs rest]|] eqn:Hh; [|done].
  injection Hat as Hm.
  apply marker_match_here in Hh as (g & -> & Hs & Hne & Hline & Hshort).
  assert (text = take (m_start m) text +:+ marker_open +:+ g
                 +:+ marker_close +:+ rest) as Htext.
  { by rewrite <-Hs, take_drop. }
  assert (drop (m_end m) text = rest) as Hrest.
  { assert (m_end m = m_start m
              + (String.length (drop (m_start m) text) - String.length rest))
      as -> by (by rewrite <-Hm).
    rewrite <-drop_drop, Hs, <-!app_assoc, length_app, Nat.add_sub.
    apply drop_app_length. }
  exists (take (m_start m) text), g, rest.
  split; [done|]. split; [by rewrite <-Hm|]. split; [|split; [done|]].
  - intros pre' g' post' Hreg.
    destruct (decide (String.length pre' < m_start m)) as [Hlt|].
    + specialize (Hleft _ Hlt). simpl in Hleft. unfold match_at in Hleft.
      destruct (registers_match_here _ _ _ _ Hreg) as [[gs' rest'] Hh'].
      by rewrite Hh' in Hleft.
    + rewrite length_take by lia. lia.
  - rewrite <-occurs_registers, <-search_None_iff. by rewrite <-Hrest.
Qed.

Lemma get_class_name_Some_witness :
  ∃ pre g post,
    registers foo_cc pre g post ∧ "a.b.Foo" = Str.replace "/" "." g.
Proof.
  destruct (get_class_name_Some foo_cc "a.b.Foo")
    as (pre & g & post & Hreg & Hcls & _).
  - vm_compute. reflexivity.
  - by exists pre, g, post.
Defined.

End Registration.

(* ===================================================================== *)
(** ** Where names and records come from *)
(* ===================================================================== *)

Module Provenance.
Import Str StrFacts Re ReFacts ReOrder ReMeaning ArtJniMethodParser ParserFacts
  Records ParseTable RecordShape Samples MoreSamples.

(** Every match that [finditer] reports stands in the text. *)
Lemma finditer_occurrence p text m :
  m ∈ finditer p text →
  ∃ pre body post,
    text = pre +:+ body +:+ post ∧ matches p body (m_groups m).
Proof.
  intros Hat%finditer_elem. unfold match_at in Hat.
  destruct (match_here _ _) as [[gs rest]|] eqn:Hh; [|done].
  injection Hat as <-. simpl.
  apply match_here_sound in Hh as (body & Hd & Hb).
  exists (take (m_start m) text), body, rest. split; [|done].
  by rewrite <-Hd, take_drop.
Qed.

Lemma matches_Lit_inv l p body gs :
  matches (Lit l :: p) body gs →
  ∃ body', body = l +:+ body' ∧ matches p body' gs.
Proof.
  inversion 1 as [|? ? s1 s2 g1 g2 Hn Hp]; subst.
  inversion Hn; subst. by exists s2.
Qed.

Lemma matches_Quant_inv q p body gs :
  matches (Quant q :: p) body gs →
  ∃ s body', body = s +:+ body' ∧ captured_by q s ∧ matches p body' gs.
Proof.
  inversion 1 as [|? ? s1 s2 g1 g2 Hn Hp]; subst.
  inversion Hn; subst. by exists s1, s2.
Qed.

Lemma matches_Group_inv q p body gs :
  matches (Group q :: p) body gs →
  ∃ s body' gs',
    body = s +:+ body' ∧ gs = s :: gs' ∧ captured_by q s ∧ matches p body' gs'.
Proof.
  inversion 1 as [|? ? s1 s2 g1 g2 Hn Hp]; subst.
  inversion Hn; subst. by exists s1, s2, g2.
Qed.

Lemma captured_plus_space s : captured_by (Plus space) s → white_space s.
Proof.
  intros [Hlen Hall]. split; [|done]. intros ->. simpl in Hlen. lia.
Qed.

Lemma captured_star_space s : captured_by (Star space) s → blank s.
Proof. by intros [_ Hall]. Qed.

(** X15. Every name in the set that [_check_methods] builds stands in the text
    as the name of a function declared static: after the word [static],
    white space, one word, and white space again, and before an opening
    parenthesis; and it is a word that is not empty. *)
Theorem static_function_name_stands (text x : string) :
  x ∈ static_function_names_of text →
  ∃ pre ws1 type ws2 post,
    text = pre +:+ "static" +:+ ws1 +:+ type +:+ ws2 +:+ x +:+ "(" +:+ post
    ∧ white_space ws1 ∧ word_name type ∧ white_space ws2 ∧ word_name x.
Proof.
  intros (m & Hm & <-)%elem_of_static_function_names.
  apply finditer_occurrence in Hm as (pre & body & post & -> & Hb).
  unfold static_function_pattern in Hb.
  apply matches_Lit_inv in Hb as (b1 & -> & Hb).
  apply matches_Quant_inv in Hb as (ws1 & b2 & -> & Hws1 & Hb).
  apply matches_Quant_inv in Hb as (type & b3 & -> & Htype & Hb).
  apply matches_Quant_inv in Hb as (ws2 & b4 & -> & Hws2 & Hb).
  apply matches_Group_inv in Hb as (x & b5 & gs & -> & Hg & Hx & Hb).
  apply matches_Lit_inv in Hb as (b6 & -> & Hb).
  inversion Hb; subst. unfold group. rewrite Hg. simpl.
  exists pre, ws1, type, ws2, post. rewrite !app_assoc, app_empty_l.
  split_and!; first [done | by apply captured_plus_space
                     | by apply captured_word].
Qed.

Lemma static_function_name_stands_witness :
  ∃ pre ws1 type ws2 post,
    Samples.foo_cc
    = pre +:+ "static" +:+ ws1 +:+ type +:+ ws2 +:+ "Foo_bar" +:+ "(" +:+ post
    ∧ word_name type.
Proof.
  destruct (static_function_name_stands Samples.foo_cc "Foo_bar")
    as (pre & ws1 & type & ws2 & post & Ht & _ & Hty & _).
  - by vm_compute.
  - by exists pre, ws1, type, ws2, post.
Defined.

(** What a match of [method_s] after white space and a form's name says. *)
Lemma declaration_matches name tail body gs :
  matches (Quant (Plus space) :: Lit name :: method_s ++ tail) body gs →
  ∃ ws0 ws1 g1 ws2 ws3 g2 after gs',
    body = ws0 +:+ name +:+ "(" +:+ ws1 +:+ g1 +:+ ws2 +:+ "," +:+ ws3
           +:+ g2 +:+ after
    ∧ gs = g1 :: g2 :: gs'
    ∧ white_space ws0 ∧ blank ws1 ∧ blank ws2 ∧ blank ws3.
Proof.
  intros Hb. unfold method_s in Hb. simpl in Hb.
  apply matches_Quant_inv in Hb as (ws0 & b1 & -> & Hws0 & Hb).
  apply matches_Lit_inv in Hb as (b2 & -> & Hb).
  apply matches_Lit_inv in Hb as (b3 & -> & Hb).
  apply matches_Quant_inv in Hb as (ws1 & b4 & -> & Hws1 & Hb).
  apply matches_Group_inv in Hb as (g1 & b5 & gs1 & -> & -> & Hg1 & Hb).
  apply matches_Quant_inv in Hb as (ws2 & b6 & -> & Hws2 & Hb).
  apply matches_Lit_inv in Hb as (b7 & -> & Hb).
  apply matches_Quant_inv in Hb as (ws3 & b8 & -> & Hws3 & Hb).
  apply matches_Group_inv in Hb as (g2 & b9 & gs2 & -> & -> & Hg2 & Hb).
  exists ws0, ws1, g1, ws2, ws3, g2, b9, gs2.
  split_and!; first [done | by apply captured_plus_space
                     | by apply captured_star_space].
Qed.

Lemma declaration_patterns p :
  p ∈ method_patterns ++ overload_method_patterns →
  ∃ name tail,
    name ∈ form_names
    ∧ p = Quant (Plus space) :: Lit name :: method_s ++ tail.
Proof.
  unfold method_patterns, overload_method_patterns, names. simpl.
  intros Hp.
  repeat (apply elem_of_cons in Hp as [->|Hp]; [
    eexists _, _; split; [|reflexivity];
    unfold form_names, names; simpl; by repeat constructor|]).
  by apply elem_of_nil in Hp.
Qed.

(** X16. No record is made up: for every record that [parse_methods] returns,
    the text holds, after white space, the name of one of the nine
    declaration forms, an opening parenthesis, the short name of the
    record's class, a comma and the record's method name, with nothing but
    white space around the two names. *)
Theorem record_has_declaration (file_path text : string)
    (records : list ArtJniMethod) (record : ArtJniMethod) :
  parse_methods (file_path, text) = Ok records →
  record ∈ records →
  ∃ name pre ws0 ws1 ws2 ws3 post,
    name ∈ form_names
    ∧ text = pre +:+ ws0 +:+ name +:+ "(" +:+ ws1
             +:+ class_base_name_of (class_name record) +:+ ws2 +:+ ","
             +:+ ws3 +:+ java_method_name record +:+ post
    ∧ white_space ws0 ∧ blank ws1 ∧ blank ws2 ∧ blank ws3.
Proof.
  intros [[_ ->]|(m & Hm & Hbound & _ & ->)]%parse_methods_Ok_inv Hin.
  { by apply elem_of_nil in Hin. }
  set (cls := Str.replace "/" "." (group 1 m)) in *.
  assert (∃ p d sym,
    p ∈ method_patterns ++ overload_method_patterns
    ∧ d ∈ finditer p text ∧ record = record_of cls sym d
    ∧ group 1 d = class_base_name_of cls) as (p & d & sym & Hp & Hd & -> & Hg1).
  { unfold records_by_form in Hin.
    apply elem_of_app in Hin as [(p & Hr & Hp)%list_elem_of_bind
                                |(p & Hr & Hp)%list_elem_of_bind];
      apply list_elem_of_fmap in Hr as (d & -> & Hd);
      exists p, d; eexists; (split; [apply elem_of_app; by auto|]);
      (split; [done|]); (split; [done|]); apply Hbound, elem_of_app;
      [left|right]; apply list_elem_of_bind; by exists p. }
  apply declaration_patterns in Hp as (name & tail & Hname & ->).
  apply finditer_occurrence in Hd as (pre & body & post & -> & Hb).
  apply declaration_matches in Hb
    as (ws0 & ws1 & g1 & ws2 & ws3 & g2 & after & gs' & -> & Hgs & H0 & H1
        & H2 & H3).
  unfold group in Hg1. rewrite Hgs in Hg1. simpl in Hg1. subst g1.
  exists name, pre, ws0, ws1, ws2, ws3, (after +:+ post).
  split; [done|]. simpl. unfold group. rewrite Hgs. simpl.
  rewrite !app_assoc. by split_and!.
Qed.

Lemma record_has_declaration_witness :
  ∃ name pre ws0 ws1 ws2 ws3 post,
    name ∈ form_names
    ∧ bar_cc = pre +:+ ws0 +:+ name +:+ "(" +:+ ws1 +:+ "Bar" +:+ ws2 +:+ ","
               +:+ ws3 +:+ "clear" +:+ post.
Proof.
  destruct (record_has_declaration "Bar.cc" bar_cc
    [{| class_name := "x.Bar"; java_method_name := "size";
        native_method_name := "Bar_size" |};
     {| class_name := "x.Bar"; java_method_name := "clear";
        native_method_name := "Bar_clear" |}]
    {| class_name := "x.Bar"; java_method_name := "clear";
       native_method_name := "Bar_clear" |})
    as (name & pre & ws0 & ws1 & ws2 & ws3 & post & Hn & Ht & _).
  - vm_compute. reflexivity.
  - right. left.
  - exists name, pre, ws0, ws1, ws2, ws3, post. split; [done|].
    rewrite Ht at 1. reflexivity.
Defined.

End Provenance.

(* ===================================================================== *)
(** ** One position, one declaration form *)
(* ===================================================================== *)

Module Forms.
Import Str StrFacts Re ReFacts ReOrder ReMeaning ArtJniMethodParser ParserFacts
  Provenance Samples MoreSamples.

Lemma run_white_space ws s :
  blank ws → starts_solid s = true →
  run space (ws +:+ s) = String.length ws.
Proof.
  unfold blank. intros Hws Hs. induction ws as [|a ws IH]; simpl in *.
  - destruct s as [|c s]; [done|]. simpl in *.
    by destruct (space c).
  - apply andb_prop in Hws as [-> Hws]. by rewrite IH.
Qed.

Lemma prefixes_comparable a b s :
  is_Some (strip_prefix a s) → is_Some (strip_prefix b s) →
  is_Some (strip_prefix a b) ∨ is_Some (strip_prefix b a).
Proof.
  revert b s. induction a as [|x a IH]; intros b s; [by left|].
  destruct b as [|y b]; [by right|]. destruct s as [|z s]; simpl.
  { by intros [? [=]]. }
  destruct (Ascii.eqb_spec x z) as [->|]; [|by intros [? [=]]].
  destruct (Ascii.eqb_spec y z) as [->|]; [|by intros _ [? [=]]].
  rewrite Ascii.eqb_refl. apply IH.
Qed.

(** Two forms that match at the head of the same string have names of
    which one, with its parenthesis, begins the other. *)
Lemma same_head_names n1 n2 tl1 tl2 s :
  is_Some (match_here (Quant (Plus space) :: Lit n1 :: Lit "(" :: tl1) s) →
  is_Some (match_here (Quant (Plus space) :: Lit n2 :: Lit "(" :: tl2) s) →
  starts_solid n1 = true → starts_solid n2 = true →
  is_Some (strip_prefix (n1 +:+ "(") (n2 +:+ "("))
  ∨ is_Some (strip_prefix (n2 +:+ "(") (n1 +:+ "(")).
Proof.
  intros [[gs1 r1] H1] [[gs2 r2] H2] Hn1 Hn2.
  assert (∀ n tl gs r,
    starts_solid n = true →
    match_here (Quant (Plus space) :: Lit n :: Lit "(" :: tl) s = Some (gs, r) →
    is_Some (strip_prefix (n +:+ "(") (drop (run space s) s))) as Hgen.
  { intros n tl gs r Hn (body & -> & Hb)%match_here_sound.
    apply matches_Quant_inv in Hb as (ws & b1 & -> & [_ Hws] & Hb).
    apply matches_Lit_inv in Hb as (b2 & -> & Hb).
    apply matches_Lit_inv in Hb as (b3 & -> & Hb).
    rewrite !app_assoc. rewrite run_white_space; [|done|].
    - rewrite drop_app_length.
      replace (n +:+ "(" +:+ b3 +:+ r) with ((n +:+ "(") +:+ b3 +:+ r)
        by (by rewrite !app_assoc).
      by rewrite strip_prefix_app.
    - by destruct n. }
  eapply prefixes_comparable; by eapply Hgen.
Qed.

(** X17. Two different declaration forms never match at the same position of a
    text: what is declared at one place gives a record of one form only. *)
Theorem forms_exclusive (text : string) (p q : pattern) (d d' : Match) :
  p ∈ method_patterns ++ overload_method_patterns →
  q ∈ method_patterns ++ overload_method_patterns →
  p ≠ q →
  d ∈ finditer p text → d' ∈ finditer q text →
  m_start d ≠ m_start d'.
Proof.
  intros Hp Hq Hne Hd%finditer_elem Hd'%finditer_elem Hs. rewrite <-Hs in Hd'.
  apply Hne. clear Hne. unfold match_at in *.
  destruct (match_here p _) as [[gs r]|] eqn:H1; [|done].
  destruct (match_here q _) as [[gs' r']|] eqn:H2; [|done].
  clear Hd Hd' Hs.
  assert (is_Some (match_here p (drop (m_start d) text))) as Hmp by by eexists.
  assert (is_Some (match_here q (drop (m_start d) text))) as Hmq by by eexists.
  clear H1 H2. generalize dependent (drop (m_start d) text). intros s Hmp Hmq.
  unfold method_patterns, overload_method_patterns, names in Hp, Hq.
  simpl in Hp, Hq.
  repeat (apply elem_of_cons in Hp as [->|Hp]);
    [..|by apply elem_of_nil in Hp];
    (repeat (apply elem_of_cons in Hq as [->|Hq]);
       [..|by apply elem_of_nil in Hq]);
    first [reflexivity
          | exfalso;
            destruct (same_head_names _ _ _ _ s Hmp Hmq eq_refl eq_refl)
              as [[? Hx]|[? Hx]]; vm_compute in Hx; discriminate].
Qed.

Lemma forms_exclusive_witness : 161 ≠ 260.
Proof.
  apply (forms_exclusive mixed_cc
    (Quant (Plus space) :: Lit "FAST_NATIVE_METHOD" :: method_s)
    (Quant (Plus space) :: Lit "NATIVE_METHOD" :: method_s)
    {| m_start := 161; m_end := 193; m_groups := ["Foo"; "first"] |}
    {| m_start := 260; m_end := 287; m_groups := ["Foo"; "third"] |}).
  - unfold method_patterns, names. simpl. by repeat constructor.
  - unfold method_patterns, names. simpl. by repeat constructor.
  - done.
  - vm_compute. left.
  - vm_compute. left.
Defined.

End Forms.

(* ===================================================================== *)
(** ** Growing tables, missing tables *)
(* ===================================================================== *)

Module Tables.
Import StrFacts ArtJniMethodParser ParserFacts Rendering Driver Collection
  Samples MoreSamples.

Lemma join_empty_cons (x : string) (l : list string) :
  Str.join "" (x :: l) = x +:+ Str.join "" l.
Proof. destruct l; simpl; [by rewrite app_empty_r|done]. Qed.

Lemma join_empty_app (l l' : list string) :
  Str.join "" (l ++ l') = Str.join "" l +:+ Str.join "" l'.
Proof.
  induction l as [|x l IH]; [done|].
  by rewrite <-app_comm_cons, !join_empty_cons, IH, app_assoc.
Qed.

Lemma join_cons_lines (x : string) (l : list string) :
  Str.join newline (x :: l) = x +:+ Str.join "" ((λ y, newline +:+ y) <$> l).
Proof.
  revert x. induction l as [|y l IH]; intros x.
  - simpl. by rewrite app_empty_r.
  - change (Str.join newline (x :: y :: l))
      with (x +:+ newline +:+ Str.join newline (y :: l)).
    by rewrite IH, fmap_cons, join_empty_cons, !app_assoc.
Qed.

Lemma join_app_lines (l l' : list string) :
  l ≠ [] →
  Str.join newline (l ++ l')
  = Str.join newline l +:+ Str.join "" ((λ y, newline +:+ y) <$> l').
Proof.
  destruct l as [|x l]; [done|]. intros _.
  by rewrite <-app_comm_cons, !join_cons_lines, fmap_app, join_empty_app,
    app_assoc.
Qed.

(** X18. Rendering more records only adds to the text: the table of a list of
    records followed by others is the table of the list, followed by a
    newline and a line for each of the others.  So the table of a directory
    iterated as some files and then others begins with the table of the
    first files. *)
Theorem table_grows (files1 files2 : list (string * string))
    (methods1 methods2 : list ArtJniMethod) :
  collect_art_jni_methods files1 = Ok methods1 →
  collect_art_jni_methods files2 = Ok methods2 →
  collect_art_jni_methods (files1 ++ files2) = Ok (methods1 ++ methods2)
  ∧ art_jni_methods_to_str (methods1 ++ methods2)
    = art_jni_methods_to_str methods1
      +:+ Str.join "" ((λ method, newline +:+ method_line method)
                         <$> methods2).
Proof.
  intros H1 H2. split.
  - by rewrite collect_app, H1, H2.
  - rewrite !art_jni_methods_to_str_eq, fmap_app, List.app_assoc.
    rewrite join_app_lines by done. f_equal.
    by rewrite <-list_fmap_compose.
Qed.

Lemma table_grows_witness :
  art_jni_methods_to_str
    ([{| class_name := "a.b.Foo"; java_method_name := "bar";
         native_method_name := "Foo_bar" |}]
     ++ [{| class_name := "x.Bar"; java_method_name := "size";
            native_method_name := "Bar_size" |};
         {| class_name := "x.Bar"; java_method_name := "clear";
            native_method_name := "Bar_clear" |}])
  = art_jni_methods_to_str
      [{| class_name := "a.b.Foo"; java_method_name := "bar";
          native_method_name := "Foo_bar" |}]
    +:+ Str.join ""
          ((λ method, newline +:+ method_line method)
             <$> [{| class_name := "x.Bar"; java_method_name := "size";
                     native_method_name := "Bar_size" |};
                  {| class_name := "x.Bar"; java_method_name := "clear";
                     native_method_name := "Bar_clear" |}]).
Proof.
  apply (table_grows [("Foo.cc", foo_cc)] [("Bar.cc", bar_cc)]).
  - vm_compute. reflexivity.
  - vm_compute. reflexivity.
Defined.

(** X4. A check against a stored table that is not there ends with an
    exception and status 1, prints nothing and creates nothing: with the
    exception of the collection when that raises, which comes first, and
    with [FileNotFoundError] otherwise. *)
Theorem check_without_table (w : world) :
  OUTPUT_FILE w = None →
  snd (main true w) = w
  ∧ exit_status true w = 1%Z
  ∧ fst (main true w)
    = match collect_art_jni_methods (native_method_dir w) with
      | Ok _ => Raised FileNotFoundError
      | Raise e => Raised e
      end.
Proof.
  intros Hout. unfold exit_status.
  destruct (collect_art_jni_methods (native_method_dir w))
    as [methods|e] eqn:Hc.
  - by rewrite (main_check_only w methods Hc), Hout.
  - by rewrite (main_raised true e w Hc).
Qed.

Lemma check_without_table_witness :
  fst (main true (world_of [("Foo.cc", foo_cc)] None))
  = Raised FileNotFoundError.
Proof.
  apply (check_without_table (world_of [("Foo.cc", foo_cc)] None)).
  reflexivity.
Defined.

End Tables.

(* ===================================================================== *)
(** ** The generated table, stored and read back *)
(* ===================================================================== *)

Module StoredText.
Import Re ReFacts ReOrder ArtJniMethodParser ParserFacts Rendering Driver
  ClassNames Records VerifyMode Registration.

(** A string of characters of a class holds no character outside it. *)
Lemma mem_all (c : ascii → bool) (a : ascii) (g : string) :
  c a = false → Str.all c g = true → Str.mem a g = false.
Proof.
  intros Hc. induction g as [|b g IH]; simpl; [done|].
  intros [Hb Hg]%andb_prop. rewrite (IH Hg).
  destruct (Ascii.eqb_spec b a) as [->|]; [congruence|done].
Qed.

Lemma mem_replace_other (old new a : ascii) (s : string) :
  new ≠ a → Str.mem a s = false → Str.mem a (Str.replace old new s) = false.
Proof.
  intros Hnew. induction s as [|b s IH]; simpl; [done|].
  intros [Hb Hs]%orb_false_elim. rewrite (IH Hs).
  destruct (Ascii.eqb b old); [|by rewrite Hb].
  by destruct (Ascii.eqb_spec new a).
Qed.

Lemma mem_base_name (a : ascii) (cls : string) :
  Str.mem a cls = false → Str.mem a (class_base_name_of cls) = false.
Proof.
  destruct (class_base_name_spec cls) as [_ [[_ ->]|(pre & Hcls)]]; [done|].
  rewrite Hcls at 1. rewrite !mem_append.
  by intros [_ [_ ?]%orb_false_elim]%orb_false_elim.
Qed.

Lemma mem_drop (a : ascii) (n : nat) (s : string) :
  Str.mem a s = false → Str.mem a (Str.drop n s) = false.
Proof.
  rewrite <-(StrFacts.take_drop n s) at 1. rewrite mem_append.
  by intros [_ ?]%orb_false_elim.
Qed.

(** The names of a declaration are words, and a carriage return is no
    character of a word. *)
Lemma declaration_words p text d i :
  p ∈ method_patterns ++ overload_method_patterns →
  d ∈ finditer p text → no_carriage_return (group i d).
Proof.
  intros Hp Hd%finditer_captures.
  assert (Forall (λ q, class q "013"%char = false) (captures p)) as Hq.
  { clear Hd. revert p Hp. apply Forall_forall.
    unfold method_patterns, overload_method_patterns, names. simpl.
    repeat constructor. }
  assert (Forall no_carriage_return (m_groups d)) as Hg.
  { revert Hq. induction Hd as [|q g qs gs [_ Hall] _ IH]; [constructor|].
    intros [Hq Hqs]%Forall_cons. constructor; [|by apply IH].
    by eapply mem_all; [|exact Hall]. }
  unfold group. destruct (decide (pred i < length (m_groups d))) as [Hi|Hi].
  - rewrite Forall_forall in Hg. apply Hg, list_elem_of_In, nth_In. done.
  - rewrite nth_overflow by lia. done.
Qed.

(** The identifier of a registration is a piece of the text. *)
Lemma marker_identifier text m :
  no_carriage_return text →
  m ∈ finditer class_name_pattern text → no_carriage_return (group 1 m).
Proof.
  intros Htext Hm%finditer_elem. unfold match_at in Hm.
  destruct (match_here class_name_pattern (Str.drop (m_start m) text))
    as [[gs rest]|] eqn:Hh; [|done].
  injection Hm as Hm. rewrite <-Hm. unfold group. simpl.
  apply marker_match_here in Hh as (g & -> & Hs & _). simpl.
  apply (mem_drop _ (m_start m)) in Htext. rewrite Hs in Htext.
  rewrite !mem_append in Htext.
  by apply orb_false_elim in Htext as [_ [? _]%orb_false_elim].
Qed.

Lemma no_carriage_return_record_of p text cls sym d :
  no_carriage_return cls →
  p ∈ method_patterns ++ overload_method_patterns →
  d ∈ finditer p text → no_carriage_return_record (record_of cls sym d).
Proof.
  intros Hcls Hp Hd. split; [done|]. split; simpl.
  - by eapply declaration_words.
  - unfold no_carriage_return. rewrite !mem_append.
    rewrite (mem_base_name _ cls Hcls).
    by rewrite (declaration_words p text d sym Hp Hd).
Qed.

(** No field of a record extracted from a text without carriage return
    holds one. *)
Lemma parsed_no_carriage_return file records :
  no_carriage_return (snd file) →
  parse_methods file = Ok records →
  Forall no_carriage_return_record records.
Proof.
  destruct file as [file_path text]. simpl. intros Htext.
  intros [[_ ->]|(m & Hm & ->)]%parse_methods_Ok; [constructor|].
  assert (no_carriage_return (Str.replace "/" "." (group 1 m))) as Hcls.
  { apply mem_replace_other; [done|]. apply (marker_identifier text); [done|].
    unfold markers in Hm. rewrite Hm. left. }
  unfold records_by_form. apply Forall_app. split.
  - apply Forall_forall. intros r (p & Hr & Hp)%list_elem_of_bind.
    apply list_elem_of_fmap in Hr as (d & -> & Hd).
    eapply no_carriage_return_record_of; [done| |done].
    apply elem_of_app. by left.
  - apply Forall_forall. intros r (p & Hr & Hp)%list_elem_of_bind.
    apply list_elem_of_fmap in Hr as (d & -> & Hd).
    eapply no_carriage_return_record_of; [done| |done].
    apply elem_of_app. by right.
Qed.

Lemma collected_no_carriage_return files methods :
  Forall (λ file, no_carriage_return (snd file)) files →
  collect_art_jni_methods files = Ok methods →
  Forall no_carriage_return_record methods.
Proof.
  intros Hfiles (per_file & Hall & ->)%collect_Ok. revert Hfiles.
  induction Hall as [|file records files per_file Hp _ IH]; [constructor|].
  intros [Hfile Hfiles]%Forall_cons. simpl. apply Forall_app.
  split; [by eapply parsed_no_carriage_return|by apply IH].
Qed.

Lemma read_files_no_carriage_return files :
  Forall (λ file, no_carriage_return (snd file)) (read_files files).
Proof.
  unfold read_files. apply Forall_fmap, Forall_forall. intros file _.
  apply read_text_no_carriage_return.
Qed.

Lemma no_carriage_return_method_line method :
  no_carriage_return_record method → no_carriage_return (method_line method).
Proof.
  intros (Hc & Hj & Hn).
  unfold no_carriage_return, method_line, format_line in *.
  rewrite !mem_append, Hc, Hj, Hn. by vm_compute.
Qed.

Lemma no_carriage_return_join lines :
  Forall no_carriage_return lines →
  no_carriage_return (Str.join newline lines).
Proof.
  induction 1 as [|l ls Hl Hls IH]; [done|]. destruct ls as [|l' ls]; [done|].
  change (Str.join newline (l :: l' :: ls))
    with (l +:+ newline +:+ Str.join newline (l' :: ls)).
  unfold no_carriage_return in *. by rewrite !mem_append, Hl, IH.
Qed.

(** The text rendered from the files of a directory, which the script has
    read with [read_text], holds no carriage return... *)
Lemma rendered_no_carriage_return files methods :
  collect_art_jni_methods (read_files files) = Ok methods →
  no_carriage_return (art_jni_methods_to_str methods).
Proof.
  intros Hc. rewrite art_jni_methods_to_str_eq.
  apply no_carriage_return_join, Forall_app. split.
  - unfold header. by repeat constructor.
  - apply Forall_fmap.
    eapply Forall_impl; [|intros method; apply no_carriage_return_method_line].
    eapply collected_no_carriage_return; [|exact Hc].
    apply read_files_no_carriage_return.
Qed.

(** ... and so reads back as it is written. *)
Lemma rendered_reads_back files methods :
  collect_art_jni_methods (read_files files) = Ok methods →
  read_text (art_jni_methods_to_str methods)
  = art_jni_methods_to_str methods.
Proof.
  intros Hc. by eapply read_text_unchanged, rendered_no_carriage_return.
Qed.

(** A generating run over a directory whose collection succeeds leaves the
    world of that directory with the rendered text as the characters of the
    stored table. *)
Lemma generate_on_disk files table out methods :
  collect_art_jni_methods (read_files files) = Ok methods →
  main false (world_on_disk files table out)
  = (Returned true,
     world_on_disk files (Some (art_jni_methods_to_str methods)) out).
Proof.
  intros Hc. rewrite (main_generate (world_on_disk files table out) methods Hc).
  unfold write_text, world_on_disk. simpl.
  by rewrite (rendered_reads_back files methods Hc).
Qed.

End StoredText.
